(** * sublime-jekyll: the post title normalizer, the frontmatter builder and
    the post creation command of [jekyll.py], embedded and verified.

    Strings are Python 3 [str] values restricted to code points below 256:
    a character is an [ascii] read as its code point, so the character
    classes below are those of CPython's Unicode database on that range.
    Paths follow [posixpath]. *)

From Stdlib Require Import Ascii String List Bool Arith ZArith Lia.
From Stdlib Require Import DecimalString.
From stdpp Require Import base option gmap strings.

(** ** Characters *)

Module PyChar.

Definition code (c : ascii) : nat := nat_of_ascii c.

Definition between (lo hi : nat) (c : ascii) : bool :=
  (lo <=? code c) && (code c <=? hi).

Definition is_code (n : nat) (c : ascii) : bool := code c =? n.

Definition SPACE : ascii := ascii_of_nat 32.
Definition HYPHEN : ascii := ascii_of_nat 45.
Definition SLASH : ascii := ascii_of_nat 47.
Definition UNDERSCORE : ascii := ascii_of_nat 95.
Definition TAB : ascii := ascii_of_nat 9.
Definition NEWLINE : ascii := ascii_of_nat 10.
Definition DQUOTE : ascii := ascii_of_nat 34.

(** [str.isspace] on one code point: the ASCII table of CPython (TAB..CR,
    FS..US, SPACE) and, above it, NEL and NBSP. *)
Definition isspace (c : ascii) : bool :=
  between 9 13 c || between 28 32 c || is_code 133 c || is_code 160 c.

(** [str.isalnum] on one code point: letters, decimal digits, digits and
    numerics (superscripts and vulgar fractions included). *)
Definition isalnum (c : ascii) : bool :=
  between 48 57 c || between 65 90 c || between 97 122 c
  || is_code 170 c || is_code 178 c || is_code 179 c || is_code 181 c || is_code 185 c || is_code 186 c
  || between 188 190 c || between 192 214 c || between 216 246 c
  || between 248 255 c.

(** The class [\w] of [re] on a [str] pattern: alphanumeric or underscore. *)
Definition isword (c : ascii) : bool := isalnum c || is_code 95 c.

(** [str.lower] on one code point: A..Z and the capital letters of
    Latin-1 (U+00C0..U+00DE but the multiplication sign) move up by 32. *)
Definition lower (c : ascii) : ascii :=
  if between 65 90 c || (between 192 222 c && negb (is_code 215 c))
  then ascii_of_nat (code c + 32)
  else c.

End PyChar.

(** ** The fragment of [re] that the normalizer uses *)

Inductive cls := ClsWord | ClsSpace.

Definition cls_matches (k : cls) (c : ascii) : bool :=
  match k with
  | ClsWord => PyChar.isword c
  | ClsSpace => PyChar.isspace c
  end.

(** Patterns that consume exactly one character. *)
Inductive regex :=
  | Lit (c : ascii)
  | Alt (r1 r2 : regex)
  | NegSet (items : list cls).

Fixpoint re_match (r : regex) (c : ascii) : bool :=
  match r with
  | Lit a => Ascii.eqb a c
  | Alt r1 r2 => re_match r1 c || re_match r2 c
  | NegSet items => negb (existsb (fun k => cls_matches k c) items)
  end.

(** [re.sub(pattern, repl, s)] for a one-character pattern: the scan goes
    left to right and every match is replaced, one match per character. *)
Fixpoint re_sub (r : regex) (repl : string) (s : string) : string :=
  match s with
  | EmptyString => EmptyString
  | String c s' =>
      if re_match r c then repl +:+ re_sub r repl s'
      else String c (re_sub r repl s')
  end.

Fixpoint str_lower (s : string) : string :=
  match s with
  | EmptyString => EmptyString
  | String c s' => String (PyChar.lower c) (str_lower s')
  end.

(** ** Dates and [strftime('%Y-%m-%d')] *)

(** A [datetime] value, of which only the calendar date is read. Python
    keeps 1 <= year <= 9999, 1 <= month <= 12 and 1 <= day <= 31. *)
Record date := mkdate { year : nat; month : nat; day : nat }.

Definition digit (n : nat) : ascii := ascii_of_nat (48 + n mod 10).

(** Zero-padded decimal fields, as [%Y], [%m] and [%d] are documented. *)
Definition fmt_Y (n : nat) : string :=
  String (digit (n / 1000)) (String (digit (n / 100))
    (String (digit (n / 10)) (String (digit n) EmptyString))).

Definition fmt_2 (n : nat) : string :=
  String (digit (n / 10)) (String (digit n) EmptyString).

Definition strftime_Ymd (d : date) : string :=
  fmt_Y (year d) +:+ "-" +:+ fmt_2 (month d) +:+ "-" +:+ fmt_2 (day d).

(** ** The title normalizer *)

(** ['[^\w\s]'] *)
Definition PAT_PUNCT : regex := NegSet [ClsWord; ClsSpace].
(** [' |_'] *)
Definition PAT_SEP : regex := Alt (Lit PyChar.SPACE) (Lit PyChar.UNDERSCORE).

(** [JekyllNewPostBase.clean_title_input]; [today] is what
    [datetime.today()] returned. *)
Definition clean_title_input (today : date) (title : string) : string :=
  let t := str_lower title in
  let t_str := re_sub PAT_PUNCT EmptyString t in
  let t_str := re_sub PAT_SEP "-" t_str in
  let d_str := strftime_Ymd today in
  d_str +:+ "-" +:+ t_str.

(** ** Python values and [str.format] *)

(** A JSON setting as the plugin sees it. [VOther] stands for any other
    value (array, object, float): its truth value and the text [format]
    gives it are all the code observes. *)
Inductive value :=
  | VNone
  | VBool (b : bool)
  | VInt (n : Z)
  | VStr (s : string)
  | VOther (truth : bool) (text : string).

(** [bool(v)] *)
Definition truthy (v : value) : bool :=
  match v with
  | VNone => false
  | VBool b => b
  | VInt n => negb (n =? 0)%Z
  | VStr s => negb (String.eqb s EmptyString)
  | VOther t _ => t
  end.

(** [v == s] for a string literal [s] *)
Definition py_eq_str (v : value) (s : string) : bool :=
  match v with
  | VStr s' => String.eqb s' s
  | _ => false
  end.

(** [format(v, '')], the text a replacement field with no format
    specification inserts *)
Definition py_str (v : value) : string :=
  match v with
  | VNone => "None"
  | VBool true => "True"
  | VBool false => "False"
  | VInt n => NilZero.string_of_int (Z.to_int n)
  | VStr s => s
  | VOther _ text => text
  end.

(** The index of a one-digit replacement field. *)
Definition field_index (c : ascii) : option nat :=
  if PyChar.between 48 57 c then Some (PyChar.code c - 48) else None.

(** [template.format( *args )] for templates whose replacement fields are
    [{0}] .. [{9}]. [None] stands for the [IndexError] or [ValueError] that
    Python raises on a field without argument or on a stray brace. The
    arguments are inserted as they are: only the template is parsed. *)
Fixpoint str_format (template : string) (args : list value) : option string :=
  match template with
  | EmptyString => Some EmptyString
  | String c rest =>
      if Ascii.eqb c "{" then
        match rest with
        | String i (String close rest') =>
            if Ascii.eqb close "}" then
              match field_index i with
              | Some k =>
                  match nth_error args k, str_format rest' args with
                  | Some a, Some out => Some (py_str a +:+ out)
                  | _, _ => None
                  end
              | None => None
              end
            else None
        | _ => None
        end
      else if Ascii.eqb c "}" then None
      else option_map (String c) (str_format rest args)
  end.

Definition NL : string := String PyChar.NEWLINE EmptyString.
Definition QUOTE : string := String PyChar.DQUOTE EmptyString.

(** ** Paths ([posixpath]) *)

(** [posixpath.join(a, b)] *)
Definition str_last (s : string) : option ascii :=
  match String.length s with
  | O => None
  | S n => String.get n s
  end.

Definition startswith_slash (s : string) : bool :=
  match s with
  | String c _ => Ascii.eqb c PyChar.SLASH
  | EmptyString => false
  end.

Definition endswith_slash (s : string) : bool :=
  match str_last s with
  | Some c => Ascii.eqb c PyChar.SLASH
  | None => false
  end.

Definition posix_join (a b : string) : string :=
  if startswith_slash b then b
  else if String.eqb a EmptyString || endswith_slash a then a +:+ b
  else a +:+ "/" +:+ b.

(** [(p[:i], p[i:])] for [i = p.rfind('/') + 1] *)
Fixpoint rsplit_slash (p : string) : string * string :=
  match p with
  | EmptyString => (EmptyString, EmptyString)
  | String c p' =>
      let (h, t) := rsplit_slash p' in
      if negb (String.eqb h EmptyString) then (String c h, t)
      else if Ascii.eqb c PyChar.SLASH then (String c EmptyString, p')
      else (EmptyString, String c p')
  end.

Fixpoint all_slashes (s : string) : bool :=
  match s with
  | EmptyString => true
  | String c s' => Ascii.eqb c PyChar.SLASH && all_slashes s'
  end.

(** [s.rstrip('/')] *)
Fixpoint rstrip_slash (s : string) : string :=
  match s with
  | EmptyString => EmptyString
  | String c s' =>
      let r := rstrip_slash s' in
      if String.eqb r EmptyString && Ascii.eqb c PyChar.SLASH then EmptyString
      else String c r
  end.

(** [posixpath.split(p)] *)
Definition posix_split (p : string) : string * string :=
  let (head, tail) := rsplit_slash p in
  if negb (String.eqb head EmptyString) && negb (all_slashes head)
  then (rstrip_slash head, tail)
  else (head, tail).

(** ** The host: settings, file system, editor calls *)

Inductive exn :=
  | MissingPathException
  | TypeError
  | AttributeError
  | IOError
  | ValueError.

Inductive result (A : Type) :=
  | Ok (a : A)
  | Raise (e : exn).
Arguments Ok {A} a.
Arguments Raise {A} e.

Inductive node :=
  | File (content : string)
  | Dir.

(** What a command does to the editor and to the operating system, in the
    order it does it. *)
Inductive event :=
  | ErrorMessage (msg : string)
  | OpenFile (path : string)
  | RunCommand (name path frontmatter : string)
  | PrintExc (e : exn)
  | ShutilCopy (src dst : string)
  | OpenAppend (path : string).

(** A view, with the value of its setting ['Jekyll'] when that value is a
    dictionary. A view without the setting, or with one that is not a
    dictionary, has [None]: [get_setting] then falls through to the global
    settings, either by its [else] branch or by its bare [except]. *)
Record view := mkview { v_jekyll : option (gmap string value) }.

Record world := mkworld {
  w_view : option view;
  w_global : gmap string value;
  w_packages : string;
  w_today : date;
  w_fs : gmap string node;
  w_trace : list event
}.

Definition with_trace (t : list event) (w : world) : world :=
  mkworld (w_view w) (w_global w) (w_packages w) (w_today w) (w_fs w) t.

Definition with_fs (fs : gmap string node) (w : world) : world :=
  mkworld (w_view w) (w_global w) (w_packages w) (w_today w) fs (w_trace w).

(** Commands: a state and exception monad over the world. *)
Definition M (A : Type) : Type := world -> result A * world.

#[global] Instance M_ret : MRet M := fun A a w => (Ok a, w).

#[global] Instance M_bind : MBind M := fun A B f m w =>
  match m w with
  | (Ok a, w') => f a w'
  | (Raise e, w') => (Raise e, w')
  end.

Definition raise {A : Type} (e : exn) : M A := fun w => (Raise e, w).

Definition emit (e : event) : M unit :=
  fun w => (Ok tt, with_trace (w_trace w ++ [e]) w).

Definition error_message (msg : string) : M unit := emit (ErrorMessage msg).
Definition open_file (path : string) : M unit := emit (OpenFile path).
Definition print_exc (e : exn) : M unit := emit (PrintExc e).

Definition active_view : M (option view) := fun w => (Ok (w_view w), w).
Definition packages_path : M string := fun w => (Ok (w_packages w), w).
Definition datetime_today : M date := fun w => (Ok (w_today w), w).

(** [os.path.exists] and [os.path.lexists] agree: the model has no links. *)
Definition os_path_exists (p : string) : M bool :=
  fun w => (Ok (bool_decide (is_Some (w_fs w !! p))), w).
Definition os_path_lexists (p : string) : M bool := os_path_exists p.

Definition parent_is_dir (fs : gmap string node) (p : string) : bool :=
  let head := fst (posix_split p) in
  String.eqb head EmptyString
  || match fs !! head with Some Dir => true | _ => false end.

Definition get_fs : M (gmap string node) := fun w => (Ok (w_fs w), w).

Definition write_file (p content : string) : M unit := fun w =>
  match w_fs w !! p with
  | Some Dir => (Raise IOError, w)
  | _ =>
      if parent_is_dir (w_fs w) p
      then (Ok tt, with_fs (<[p := File content]> (w_fs w)) w)
      else (Raise IOError, w)
  end.

(** [open(p, "a").close()]: an existing file is left as it is. *)
Definition open_append (p : string) : M unit :=
  emit (OpenAppend p) ;;
  fs ← get_fs ;
  match fs !! p with
  | Some (File _) => mret tt
  | Some Dir => raise IOError
  | None => write_file p EmptyString
  end.

(** [shutil.copy(src, dst)] *)
Definition shutil_copy (src dst : string) : M unit :=
  emit (ShutilCopy src dst) ;;
  fs ← get_fs ;
  match fs !! src with
  | Some (File c) =>
      match fs !! dst with
      | Some Dir => write_file (posix_join dst (snd (posix_split src))) c
      | _ => write_file dst c
      end
  | _ => raise IOError
  end.

(** [os.path.join] with a first argument that may not be a string. *)
Definition os_path_join (a : value) (b : string) : M string :=
  match a with
  | VStr a' => mret (posix_join a' b)
  | _ => raise TypeError
  end.

(** ** The plugin *)

Definition SETTINGS_FILE : string := "Jekyll.sublime-settings".

(** [catch_errors]: the decorator, applied to the body of a method. A
    handler that ran makes the method return [None]. *)
Definition catch_errors (fn : M value) : M value := fun w =>
  match fn w with
  | (Ok a, w') => (Ok a, w')
  | (Raise MissingPathException, w') =>
      (error_message
         "Jekyll: Unable to find path information in Jekyll.sublime-settings." ;;
       pkg ← packages_path ;
       let user_settings_path := posix_join (posix_join pkg "User") SETTINGS_FILE in
       there ← os_path_exists user_settings_path ;
       (if negb there then
          pkg' ← packages_path ;
          let default_settings_path :=
            posix_join (posix_join pkg' "Jekyll") SETTINGS_FILE in
          shutil_copy default_settings_path user_settings_path
        else mret tt) ;;
       open_file user_settings_path ;;
       mret VNone) w'
  | (Raise e, w') =>
      (print_exc e ;;
       error_message "Jekyll: unknown error (please, report a bug!)" ;;
       mret VNone) w'
  end.

(** The settings lookup shared by the module-level [get_setting] and the
    methods of that name. *)
Definition get_setting (v : option view) (key : string) (dflt : value)
  : M value := fun w =>
  match v with
  | Some (mkview (Some jekyll)) => (Ok (default VNone (jekyll !! key)), w)
  | _ => (Ok (default dflt (w_global w !! key)), w)
  end.

(** [JekyllNewPostBase.get_setting] *)
Definition self_get_setting (key : string) : M value :=
  view ← active_view ; get_setting view key VNone.

(** The path methods: the body as written, then the decorated method. *)
Definition posts_path_string_body : M value :=
  view ← active_view ;
  p ← get_setting view "posts_path" VNone ;
  if negb (truthy p) || py_eq_str p EmptyString
  then raise MissingPathException
  else mret p.

Definition posts_path_string : M value := catch_errors posts_path_string_body.

Definition drafts_path_string_body : M value :=
  p ← self_get_setting "drafts_path" ;
  if negb (truthy p) || py_eq_str p EmptyString
  then raise MissingPathException
  else mret p.

Definition drafts_path_string : M value := catch_errors drafts_path_string_body.

Definition create_file (filename : string) : M unit :=
  let (base, filename) := posix_split filename in
  if negb (String.eqb filename EmptyString) then
    let creation_path := posix_join base filename in
    open_append creation_path
  else mret tt.

Definition FRONTMATTER_TEMPLATE : string :=
  "---" +:+ NL +:+
  "layout: {0}" +:+ NL +:+
  "title: {1}" +:+ NL +:+
  "published: {2}" +:+ NL +:+
  "categories: {3}" +:+ NL +:+
  "tags: {4}" +:+ NL +:+
  "---" +:+ NL +:+ NL.

(** A [format] call inside a command. *)
Definition format (template : string) (args : list value) : M string :=
  match str_format template args with
  | Some s => mret s
  | None => raise ValueError
  end.

Definition create_post_frontmatter (title : string) : M string :=
  POST_LAYOUT ← self_get_setting "default_post_layout" ;
  let POST_TITLE := VStr title in
  POST_CATEGORIES ← self_get_setting "default_post_categories" ;
  POST_TAGS ← self_get_setting "default_post_tags" ;
  POST_PUBLISHED ← self_get_setting "default_post_published" ;
  frontmatter ← format FRONTMATTER_TEMPLATE
    [POST_LAYOUT; POST_TITLE; POST_PUBLISHED; POST_CATEGORIES; POST_TAGS] ;
  mret frontmatter.

(** [create_and_open_file], the same in [JekyllNewPostCommand] and
    [JekyllNewDraftCommand]. The command it runs on the view is recorded,
    not followed: what it does is the editor's to schedule. *)
Definition create_and_open_file (path frontmatter : string) : M unit :=
  create_file path ;;
  view ← active_view ;
  match view with
  | Some _ => emit (RunCommand "jekyll_post_frontmatter" path frontmatter)
  | None => raise AttributeError
  end.

Definition title_input (IS_DRAFT : bool) (title : string) : M unit :=
  post_dir ← (if IS_DRAFT then drafts_path_string else posts_path_string) ;
  syntax ← self_get_setting "default_post_syntax" ;
  let file_ext := if py_eq_str syntax "Textile" then ".textile" else ".md" in
  today ← datetime_today ;
  let clean_title := clean_title_input today title +:+ file_ext in
  full_path ← os_path_join post_dir clean_title ;
  there ← os_path_lexists full_path ;
  if (there : bool) return M unit then
    msg ← format ("Jekyll: File already exists at " +:+ QUOTE +:+ "{0}" +:+ QUOTE)
            [VStr full_path] ;
    error_message msg
  else
    frontmatter ← create_post_frontmatter title ;
    create_and_open_file full_path frontmatter.

(** ** Vocabulary of the statements *)

Fixpoint str_filter (p : ascii -> bool) (s : string) : string :=
  match s with
  | EmptyString => EmptyString
  | String c s' => if p c then String c (str_filter p s') else str_filter p s'
  end.

Fixpoint str_map (f : ascii -> ascii) (s : string) : string :=
  match s with
  | EmptyString => EmptyString
  | String c s' => String (f c) (str_map f s')
  end.

Fixpoint str_all (p : ascii -> bool) (s : string) : bool :=
  match s with
  | EmptyString => true
  | String c s' => p c && str_all p s'
  end.

(** [s[n:]] *)
Fixpoint str_drop (n : nat) (s : string) : string :=
  match n, s with
  | S n', String _ s' => str_drop n' s'
  | _, _ => s
  end.

(** The slug without its leading [YYYY-MM-DD-]. *)
Definition strip_date_prefix (slug : string) : string := str_drop 11 slug.

Definition is_sep (c : ascii) : bool :=
  Ascii.eqb c PyChar.SPACE || Ascii.eqb c PyChar.UNDERSCORE.

Definition is_hyphen (c : ascii) : bool := Ascii.eqb c PyChar.HYPHEN.

(** A character the first substitution keeps. *)
Definition kept (c : ascii) : bool := PyChar.isword c || PyChar.isspace c.

(** What the second substitution does to one character. *)
Definition hyphenate (c : ascii) : ascii :=
  if is_sep c then PyChar.HYPHEN else c.

(** The slug after its date, one character of the title at a time. *)
Definition slug_body (title : string) : string :=
  str_map hyphenate (str_filter kept (str_lower title)).

Definition is_digit (c : ascii) : bool := PyChar.between 48 57 c.

(** The shape [DDDD-DD-DD]. *)
Definition date_shape (s : string) : bool :=
  match s with
  | String y1 (String y2 (String y3 (String y4 (String h1
      (String m1 (String m2 (String h2
        (String d1 (String d2 EmptyString))))))))) =>
      is_digit y1 && is_digit y2 && is_digit y3 && is_digit y4
      && is_hyphen h1 && is_digit m1 && is_digit m2
      && is_hyphen h2 && is_digit d1 && is_digit d2
  | _ => false
  end.

Definition digit_value (c : ascii) : nat := PyChar.code c - 48.

(** The date a text of the shape [DDDD-DD-DD] spells. *)
Definition read_Ymd (s : string) : option date :=
  match s with
  | String y1 (String y2 (String y3 (String y4 (String _
      (String m1 (String m2 (String _
        (String d1 (String d2 EmptyString))))))))) =>
      Some (mkdate
              (1000 * digit_value y1 + 100 * digit_value y2
               + 10 * digit_value y3 + digit_value y4)
              (10 * digit_value m1 + digit_value m2)
              (10 * digit_value d1 + digit_value d2))
  | _ => None
  end.

(** A character of a slug after its date: a hyphen, an alphanumeric
    character that [lower] leaves alone, or whitespace other than the
    space. *)
Definition slug_char (c : ascii) : bool :=
  negb (is_sep c)
  && (is_hyphen c || kept c)
  && Ascii.eqb (PyChar.lower c) c.

(** [s.split('\n')] *)
Fixpoint split_newlines (cur : string) (s : string) : list string :=
  match s with
  | EmptyString => [cur]
  | String c s' =>
      if Ascii.eqb c PyChar.NEWLINE then cur :: split_newlines EmptyString s'
      else split_newlines (cur +:+ String c EmptyString) s'
  end.

(** The lines of a text that ends with a newline. *)
Definition text_lines (s : string) : list string :=
  removelast (split_newlines EmptyString s).

(** [s.split()]: the maximal runs of characters that are not whitespace. *)
Fixpoint split_ws (cur : string) (s : string) : list string :=
  match s with
  | EmptyString => if String.eqb cur EmptyString then [] else [cur]
  | String c s' =>
      if PyChar.isspace c then
        if String.eqb cur EmptyString then split_ws EmptyString s'
        else cur :: split_ws EmptyString s'
      else split_ws (cur +:+ String c EmptyString) s'
  end.

(** The value a settings lookup yields in a world, [None] when the key is
    missing where the lookup looks. *)
Definition raw_setting (w : world) (key : string) : option value :=
  match w_view w with
  | Some (mkview (Some jekyll)) => jekyll !! key
  | _ => w_global w !! key
  end.

Definition setting (w : world) (key : string) : value :=
  default VNone (raw_setting w key).

Definition path_key (IS_DRAFT : bool) : string :=
  if IS_DRAFT then "drafts_path" else "posts_path".

Definition file_ext (w : world) : string :=
  if py_eq_str (setting w "default_post_syntax") "Textile"
  then ".textile" else ".md".

(** The destination [title_input] computes from a posts directory. *)
Definition destination (w : world) (post_dir title : string) : string :=
  posix_join post_dir (clean_title_input (w_today w) title +:+ file_ext w).

Definition user_settings (w : world) : string :=
  posix_join (posix_join (w_packages w) "User") SETTINGS_FILE.

Definition default_settings (w : world) : string :=
  posix_join (posix_join (w_packages w) "Jekyll") SETTINGS_FILE.

Definition events_since (w w' : world) : list event :=
  skipn (length (w_trace w)) (w_trace w').

Definition is_creation (e : event) : bool :=
  match e with
  | OpenAppend _ | RunCommand _ _ _ => true
  | _ => false
  end.

(** *** Messages, texts and worlds that the statements name *)

Definition MSG_MISSING_PATH : string :=
  "Jekyll: Unable to find path information in Jekyll.sublime-settings.".

Definition MSG_UNKNOWN : string :=
  "Jekyll: unknown error (please, report a bug!)".

Definition MSG_EXISTS (full_path : string) : string :=
  "Jekyll: File already exists at " +:+ QUOTE +:+ full_path +:+ QUOTE.

(** The text of a frontmatter with the five fields given. *)
Definition frontmatter_block (layout title published categories tags : string)
  : string :=
  "---" +:+ NL +:+
  "layout: " +:+ layout +:+ NL +:+
  "title: " +:+ title +:+ NL +:+
  "published: " +:+ published +:+ NL +:+
  "categories: " +:+ categories +:+ NL +:+
  "tags: " +:+ tags +:+ NL +:+
  "---" +:+ NL +:+ NL.

Definition FRONTMATTER_MY_POST : list string :=
  ["---"; "layout: post"; "title: My Post"; "published: True";
   "categories: [blog]"; "tags: []"; "---"].

(** The path method a command calls. *)
Definition path_string (IS_DRAFT : bool) : M value :=
  if IS_DRAFT then drafts_path_string else posts_path_string.

Definition path_string_body (IS_DRAFT : bool) : M value :=
  if IS_DRAFT then drafts_path_string_body else posts_path_string_body.

Definition with_event (e : event) (w : world) : world :=
  with_trace (w_trace w ++ [e]) w.

Definition TITLE_TAB : string := "Hello," +:+ String PyChar.TAB "World!".

(** *** The readings of the specification that the code does not follow *)

(** Each run of spaces and underscores replaced by a single hyphen. *)
Fixpoint collapse_runs (in_run : bool) (s : string) : string :=
  match s with
  | EmptyString => EmptyString
  | String c s' =>
      if is_sep c then
        if in_run then collapse_runs true s'
        else String PyChar.HYPHEN (collapse_runs true s')
      else String c (collapse_runs false s')
  end.

Definition spec_clean_title_runs (today : date) (title : string) : string :=
  strftime_Ymd today +:+ "-"
  +:+ collapse_runs false (str_filter kept (str_lower title)).

(** Whitespace-separated tokens joined with hyphens. *)
Definition spec_clean_title_tokens (today : date) (title : string) : string :=
  strftime_Ymd today +:+ "-"
  +:+ String.concat "-"
        (split_ws EmptyString (str_filter kept (str_lower title))).




(** ** Worlds of the examples *)

Definition JAN5 : date := mkdate 2024 1 5.

Definition settings_my_post : gmap string value :=
  <["default_post_layout" := VStr "post"]>
  (<["default_post_categories" := VStr "[blog]"]>
  (<["default_post_tags" := VStr "[]"]>
  (<["default_post_published" := VBool true]> ∅))).

Definition fs_installed : gmap string node :=
  <["/pkg/User" := Dir]>
  (<["/pkg/Jekyll/Jekyll.sublime-settings" := File "{}"]>
  (<["/blog/_posts" := Dir]> ∅)).

(** No path is configured. *)
Definition world_unconfigured : world :=
  mkworld (Some (mkview None)) settings_my_post "/pkg" JAN5 fs_installed [].

(** [posts_path] is configured and the directory is empty. *)
Definition world_configured : world :=
  mkworld (Some (mkview None))
    (<["posts_path" := VStr "/blog/_posts"]> settings_my_post)
    "/pkg" JAN5 fs_installed [].

(** [posts_path] names a directory that does not exist. *)
Definition world_no_directory : world :=
  mkworld (Some (mkview None))
    (<["posts_path" := VStr "/gone/_posts"]> settings_my_post)
    "/pkg" JAN5 fs_installed [].

(** The package is installed as an archive: no default settings file is
    on disk, and there is no user settings file yet. *)
Definition world_archive : world :=
  mkworld (Some (mkview None)) settings_my_post "/pkg" JAN5
    (<["/pkg/User" := Dir]> (<["/blog/_posts" := Dir]> ∅)) [].

(** The post of the day is already there. *)
Definition world_taken : world :=
  with_fs (<["/blog/_posts/2024-01-05-my-post.md" := File "old"]> fs_installed)
    world_configured.

(** *** Paths in the statements *)

Definition not_slash (c : ascii) : bool := negb (Ascii.eqb c PyChar.SLASH).

(** The file name [title_input] gives a post. *)
Definition post_name (w : world) (title : string) : string :=
  clean_title_input (w_today w) title +:+ file_ext w.

(** The path [create_file] opens for the destination: the directory as
    [posixpath.split] returns it, joined to the file name again. *)
Definition created_path (w : world) (post_dir title : string) : string :=
  posix_join
    (if all_slashes post_dir then post_dir else rstrip_slash post_dir)
    (post_name w title).

(** ** The list commands *)

(** [s.endswith(suffix)] *)
Definition str_endswith (s suffix : string) : bool :=
  let n := String.length s in
  let k := String.length suffix in
  (k <=? n) && String.eqb (str_drop (n - k) s) suffix.

(** [s[:n]] *)
Fixpoint str_take (n : nat) (s : string) : string :=
  match n, s with
  | S n', String c s' => String c (str_take n' s')
  | _, _ => EmptyString
  end.

(** [s.rfind(c)]: the index of the last [c], -1 when there is none. *)
Fixpoint rfind_from (c : ascii) (s : string) (i last : Z) : Z :=
  match s with
  | EmptyString => last
  | String x s' => rfind_from c s' (i + 1)%Z (if Ascii.eqb x c then i else last)
  end.

Definition str_rfind (c : ascii) (s : string) : Z := rfind_from c s 0%Z (-1)%Z.

(** The loop of [genericpath._splitext] that skips the leading dots of the
    file name: [steps] is [dotIndex - filenameIndex]. *)
Fixpoint splitext_scan (p : string) (filenameIndex steps dotIndex : nat)
  : string * string :=
  match steps with
  | O => (p, EmptyString)
  | S steps' =>
      match String.get filenameIndex p with
      | Some "."%char => splitext_scan p (S filenameIndex) steps' dotIndex
      | _ => (str_take dotIndex p, str_drop dotIndex p)
      end
  end.

(** [posixpath.splitext(p)] *)
Definition posix_splitext (p : string) : string * string :=
  let sepIndex := str_rfind PyChar.SLASH p in
  let dotIndex := str_rfind "." p in
  if (sepIndex <? dotIndex)%Z then
    splitext_scan p (Z.to_nat (sepIndex + 1))
      (Z.to_nat (dotIndex - (sepIndex + 1))) (Z.to_nat dotIndex)
  else (p, EmptyString).

(** The key under which the file system holds the directory [p] names:
    trailing slashes do not count. *)
Definition dir_key (p : string) : string :=
  if all_slashes p then p else rstrip_slash p.

(** The names in a directory, in the order the map gives them. Python
    promises no order; the statements below hold for every order. *)
Definition children (fs : gmap string node) (dir : string) : list string :=
  omap (fun kv : string * node =>
          let (h, t) := posix_split (fst kv) in
          if String.eqb h dir && negb (String.eqb t EmptyString)
          then Some t else None)
       (map_to_list fs).

(** [os.listdir(path)]. [None] lists the current directory, whose entries
    are the relative names, and so does -1, which stands for no file
    descriptor; any other number is taken for a file descriptor, and none
    of the process is a directory. *)
Definition os_listdir (path : value) : M (list string) := fun w =>
  match path with
  | VStr p =>
      match w_fs w !! dir_key p with
      | Some Dir => (Ok (children (w_fs w) (dir_key p)), w)
      | _ => (Raise IOError, w)
      end
  | VNone => (Ok (children (w_fs w) EmptyString), w)
  | VInt n =>
      if (n =? -1)%Z then (Ok (children (w_fs w) EmptyString), w)
      else (Raise IOError, w)
  | VBool _ => (Raise IOError, w)
  | VOther _ _ => (Raise TypeError, w)
  end.

Module ListPosts.

(** An element of [posts]: the pair [[fname, fpath]] of a post, or the
    text put there when nothing was found. *)
Inductive item :=
  | Post (fname fpath : string)
  | Note (text : string).

(** What the list commands ask of the window. *)
Inductive ui :=
  | ShowQuickPanel (items : list item)
  | OpenPost (fpath : string)
  | SetSyntaxFile (name : string).

(** What one instance of a list command reads and writes, and the calls
    it made: [posts] is the list of its class, which every instance of
    the command (one per window) shares and appends to, and [syntax] is
    its own attribute. Between two calls of this instance another one
    may have extended [posts]; no statement below assumes otherwise.
    Nothing in the code resets [posts] or [syntax]. *)
Record state := mkstate {
  posts : list item;
  syntax : option string;
  calls : list ui
}.

Definition initial : state := mkstate [] None [].

Definition set_syntax (s : string) (st : state) : state :=
  mkstate (posts st) (Some s) (calls st).

Definition append (x : item) (st : state) : state :=
  mkstate (posts st ++ [x]) (syntax st) (calls st).

Definition call (c : ui) (st : state) : state :=
  mkstate (posts st) (syntax st) (calls st ++ [c]).

Definition MARKDOWN_EXTENSIONS : list string :=
  [".markdown"; ".mdown"; ".mkdn"; ".mkd"; ".md"].

(** [JekyllListPostsBase.get_syntax] *)
Definition get_syntax (file : string) (st : state) : option string * state :=
  let f := file in
  let st' :=
    if existsb (str_endswith f) MARKDOWN_EXTENSIONS then set_syntax "Markdown" st
    else if str_endswith f ".textile" then set_syntax "Textile" st
    else st in
  (syntax st', st').

(** [x == s] for the value of [self.syntax] *)
Definition syntax_is (x : option string) (s : string) : bool :=
  match x with
  | Some s' => String.eqb s' s
  | None => false
  end.

(** The loop of [run] over the names [os.listdir] gave. *)
Fixpoint scan (path : value) (names : list string) (st : state)
  : result unit * state :=
  match names with
  | [] => (Ok tt, st)
  | f :: rest =>
      let (s1, st1) := get_syntax f st in
      let (hit, st2) :=
        if syntax_is s1 "Markdown" then (true, st1)
        else let (s2, st2) := get_syntax f st1 in (syntax_is s2 "Textile", st2) in
      if hit then
        let fname := fst (posix_splitext f) in
        match path with
        | VStr p => scan path rest (append (Post fname (posix_join p f)) st2)
        | _ => (Raise TypeError, st2)
        end
      else scan path rest st2
  end.

Definition NOT_FOUND (IS_DRAFT : bool) : string :=
  if IS_DRAFT then "No drafts found!" else "No posts found!".

(** [JekyllOpenPostCommand.run] and [JekyllOpenDraftCommand.run] *)
Definition run (IS_DRAFT : bool) (st : state) (w : world)
  : result unit * state * world :=
  match path_string IS_DRAFT w with
  | (Raise e, w1) => (Raise e, st, w1)
  | (Ok path, w1) =>
      match os_listdir path w1 with
      | (Raise e, w2) => (Raise e, st, w2)
      | (Ok names, w2) =>
          match scan path names st with
          | (Raise e, st1) => (Raise e, st1, w2)
          | (Ok _, st1) =>
              let st2 :=
                if negb (0 <? length (posts st1))
                then append (Note (NOT_FOUND IS_DRAFT)) st1
                else st1 in
              (Ok tt, call (ShowQuickPanel (posts st2)) st2, w2)
          end
      end
  end.

Inductive outcome :=
  | Returned
  | IndexError.

Definition SYNTAX_FILE_TEMPLATE : string :=
  "Packages/Jekyll/Syntaxes/{0} (Jekyll).tmLanguage".

Definition syntax_value (x : option string) : value :=
  match x with
  | Some s => VStr s
  | None => VNone
  end.

(** [JekyllListPostsBase.callback] *)
Definition callback (index : Z) (st : state) : outcome * state :=
  if (-1 <? index)%Z then
    match nth_error (posts st) (Z.to_nat index) with
    | None => (IndexError, st)
    | Some (Post fname f) =>
        let (syn, st1) := get_syntax fname st in
        (Returned,
         call (SetSyntaxFile
                 (default EmptyString
                    (str_format SYNTAX_FILE_TEMPLATE [syntax_value syn])))
           (call (OpenPost f) st1))
    | Some (Note _) => (Returned, st)
    end
  else (Returned, st).

(** The syntax names [get_syntax] can remember. *)
Definition known (x : option string) : bool :=
  match x with
  | Some s => String.eqb s "Markdown" || String.eqb s "Textile"
  | None => false
  end.

Definition is_post (x : item) : bool :=
  match x with
  | Post _ _ => true
  | Note _ => false
  end.

Definition recognised (f : string) : bool :=
  existsb (str_endswith f) MARKDOWN_EXTENSIONS || str_endswith f ".textile".

(** The entry [run] makes of a name. *)
Definition entry (p f : string) : item :=
  Post (fst (posix_splitext f)) (posix_join p f).

(** The names from the first recognised one on. *)
Fixpoint skip_unrecognised (names : list string) : list string :=
  match names with
  | [] => []
  | f :: rest => if recognised f then names else skip_unrecognised rest
  end.

(** The syntax file [callback] sets for a syntax name. *)
Definition syntax_file (s : string) : string :=
  "Packages/Jekyll/Syntaxes/" +:+ s +:+ " (Jekyll).tmLanguage".

End ListPosts.

(** *** Vocabulary of the list commands *)

Definition not_dot (c : ascii) : bool := negb (Ascii.eqb c ".").

(** The syntax an extension names. *)
Definition classify (f : string) : option string :=
  if existsb (str_endswith f) ListPosts.MARKDOWN_EXTENSIONS then Some "Markdown"
  else if str_endswith f ".textile" then Some "Textile"
  else None.

(** The state after [get_syntax] looked at a name. *)
Definition seen (f : string) (st : ListPosts.state) : ListPosts.state :=
  snd (ListPosts.get_syntax f st).

(** The names [scan] lists from a state. *)
Definition listable (st : ListPosts.state) (names : list string) : list string :=
  if ListPosts.known (ListPosts.syntax st) then names
  else ListPosts.skip_unrecognised names.

(** *** More worlds *)

(** No view is active. *)
Definition world_no_view : world :=
  mkworld None
    (<["posts_path" := VStr "/blog/_posts"]> settings_my_post)
    "/pkg" JAN5 fs_installed [].

(** The view has a [Jekyll] dictionary without the paths; the global
    settings have [posts_path]. *)
Definition world_project : world :=
  mkworld (Some (mkview (Some settings_my_post)))
    (<["posts_path" := VStr "/blog/_posts"]> settings_my_post)
    "/pkg" JAN5 fs_installed [].

(** Nothing is installed. *)
Definition world_bare : world :=
  mkworld (Some (mkview None)) settings_my_post "/pkg" JAN5 ∅ [].

(** A textile post and a markdown post, listed in this order. *)
Definition state_listed : ListPosts.state :=
  ListPosts.mkstate
    [ListPosts.Post "a" "/blog/_posts/a.textile";
     ListPosts.Post "b" "/blog/_posts/b.md"]
    (Some "Markdown") [].

(** * Proofs *)

(** ** Strings *)

Ltac each_char c :=
  destruct c as [[|] [|] [|] [|] [|] [|] [|] [|]]; vm_compute; try reflexivity;
  try discriminate; try (intros; discriminate); try (intros; reflexivity).


Lemma str_app_nil_l (s : string) : EmptyString +:+ s = s.
Proof. reflexivity. Qed.

Lemma str_app_cons c (s t : string) : String c s +:+ t = String c (s +:+ t).
Proof. reflexivity. Qed.

Ltac str_simpl :=
  cbn; rewrite ?str_app_cons, ?str_app_nil_l; cbn.

Lemma str_app_nil_r (s : string) : s +:+ EmptyString = s.
Proof. induction s as [|c s IH]; str_simpl; [reflexivity | now rewrite IH]. Qed.

Lemma str_app_assoc (a b c : string) : (a +:+ b) +:+ c = a +:+ (b +:+ c).
Proof. induction a as [|x a IH]; str_simpl; [reflexivity | now rewrite IH]. Qed.

Lemma str_length_app (a b : string) :
  String.length (a +:+ b) = String.length a + String.length b.
Proof. induction a as [|x a IH]; str_simpl; [reflexivity | now rewrite IH]. Qed.

Lemma str_drop_app (a b : string) : str_drop (String.length a) (a +:+ b) = b.
Proof. induction a as [|x a IH]; str_simpl; [now destruct b | exact IH]. Qed.

Lemma str_prefix_app (a b : string) : String.prefix a (a +:+ b) = true.
Proof.
  induction a as [|x a IH]; str_simpl; [now destruct b |].
  destruct (ascii_dec x x); [exact IH | congruence].
Qed.

Lemma str_lower_app (a b : string) :
  str_lower (a +:+ b) = str_lower a +:+ str_lower b.
Proof. induction a as [|x a IH]; str_simpl; [reflexivity | now rewrite IH]. Qed.

Lemma str_filter_app p (a b : string) :
  str_filter p (a +:+ b) = str_filter p a +:+ str_filter p b.
Proof.
  induction a as [|x a IH]; str_simpl; [reflexivity |].
  destruct (p x); simpl; now rewrite IH.
Qed.

Lemma str_map_app f (a b : string) :
  str_map f (a +:+ b) = str_map f a +:+ str_map f b.
Proof. induction a as [|x a IH]; str_simpl; [reflexivity | now rewrite IH]. Qed.

Lemma str_all_app p (a b : string) :
  str_all p (a +:+ b) = str_all p a && str_all p b.
Proof.
  induction a as [|x a IH]; str_simpl; [reflexivity |].
  now rewrite IH, andb_assoc.
Qed.

Lemma str_filter_ext p q (s : string) :
  (forall c, p c = q c) -> str_filter p s = str_filter q s.
Proof.
  intros E. induction s as [|x s IH]; str_simpl; [reflexivity |].
  now rewrite E, IH.
Qed.

Lemma str_map_ext f g (s : string) :
  (forall c, f c = g c) -> str_map f s = str_map g s.
Proof.
  intros E. induction s as [|x s IH]; str_simpl; [reflexivity |].
  now rewrite E, IH.
Qed.

Lemma str_filter_all p (s : string) :
  str_all p s = true -> str_filter p s = s.
Proof.
  induction s as [|x s IH]; str_simpl; [reflexivity |].
  intros H. apply andb_true_iff in H as [Hx Hs]. now rewrite Hx, IH.
Qed.


Lemma str_length_map f (s : string) :
  String.length (str_map f s) = String.length s.
Proof. induction s as [|x s IH]; str_simpl; [reflexivity | now rewrite IH]. Qed.



(** ** The two substitutions, one character at a time *)

Lemma re_sub_app r repl (a b : string) :
  re_sub r repl (a +:+ b) = re_sub r repl a +:+ re_sub r repl b.
Proof.
  induction a as [|x a IH]; str_simpl; [reflexivity |].
  destruct (re_match r x); simpl; rewrite IH; [|reflexivity].
  now rewrite str_app_assoc.
Qed.

Lemma re_sub_delete r (s : string) :
  re_sub r EmptyString s = str_filter (fun c => negb (re_match r c)) s.
Proof.
  induction s as [|x s IH]; str_simpl; [reflexivity |].
  destruct (re_match r x); simpl; now rewrite IH.
Qed.

Lemma re_sub_replace r h (s : string) :
  re_sub r (String h EmptyString) s
  = str_map (fun c => if re_match r c then h else c) s.
Proof.
  induction s as [|x s IH]; str_simpl; [reflexivity |].
  destruct (re_match r x); simpl; now rewrite IH.
Qed.

Lemma re_match_punct c : negb (re_match PAT_PUNCT c) = kept c.
Proof.
  unfold PAT_PUNCT, kept. cbn [re_match existsb cls_matches]. now rewrite orb_false_r, negb_involutive.
Qed.

Lemma re_match_sep c : re_match PAT_SEP c = is_sep c.
Proof.
  unfold PAT_SEP, is_sep. cbn [re_match].
  now rewrite (Ascii.eqb_sym PyChar.SPACE), (Ascii.eqb_sym PyChar.UNDERSCORE).
Qed.

Lemma clean_title_input_body d t :
  clean_title_input d t = strftime_Ymd d +:+ "-" +:+ slug_body t.
Proof.
  unfold clean_title_input, slug_body. do 2 f_equal.
  rewrite re_sub_delete. change "-" with (String PyChar.HYPHEN EmptyString).
  rewrite re_sub_replace.
  rewrite (str_filter_ext _ kept) by apply re_match_punct.
  apply str_map_ext. intros c. unfold hyphenate. now rewrite re_match_sep.
Qed.

Lemma slug_body_app a b : slug_body (a +:+ b) = slug_body a +:+ slug_body b.
Proof.
  unfold slug_body. now rewrite str_lower_app, str_filter_app, str_map_app.
Qed.

Lemma slug_body_cons c t :
  slug_body (String c t) = slug_body (String c EmptyString) +:+ slug_body t.
Proof. now rewrite <- slug_body_app. Qed.

(** ** The date *)

Lemma digit_is_digit n : is_digit (digit n) = true.
Proof.
  unfold digit. pose proof (Nat.mod_upper_bound n 10 ltac:(lia)) as H.
  revert H. generalize (n mod 10) as k. intros k H.
  do 10 (destruct k as [|k]; [reflexivity |]). lia.
Qed.

Lemma strftime_Ymd_chars d :
  strftime_Ymd d =
  String (digit (year d / 1000)) (String (digit (year d / 100))
    (String (digit (year d / 10)) (String (digit (year d))
      (String PyChar.HYPHEN
        (String (digit (month d / 10)) (String (digit (month d))
          (String PyChar.HYPHEN
            (String (digit (day d / 10)) (String (digit (day d))
              EmptyString))))))))).
Proof. reflexivity. Qed.

Lemma strftime_Ymd_shape d : date_shape (strftime_Ymd d) = true.
Proof.
  rewrite strftime_Ymd_chars. unfold date_shape.
  rewrite !digit_is_digit. reflexivity.
Qed.

Lemma strftime_Ymd_length d : String.length (strftime_Ymd d) = 10.
Proof. rewrite strftime_Ymd_chars. reflexivity. Qed.

Lemma strip_date_prefix_clean d t :
  strip_date_prefix (clean_title_input d t) = slug_body t.
Proof.
  rewrite clean_title_input_body. unfold strip_date_prefix.
  rewrite <- str_app_assoc.
  replace 11 with (String.length (strftime_Ymd d +:+ "-"))
    by (rewrite str_length_app, strftime_Ymd_length; reflexivity).
  apply str_drop_app.
Qed.

(** ** Facts of single characters, checked on every code point *)

Lemma char_slug c : str_all slug_char (slug_body (String c EmptyString)) = true.
Proof. each_char c. Qed.

Lemma char_renormalize c :
  slug_body (slug_body (String c EmptyString))
  = str_filter (fun x => negb (is_hyphen x)) (slug_body (String c EmptyString)).
Proof. each_char c. Qed.

Lemma char_no_hyphen c :
  negb (is_sep c) = true ->
  str_all (fun x => negb (is_hyphen x)) (slug_body (String c EmptyString)) = true.
Proof. each_char c. Qed.

Lemma char_alnum_kept c :
  str_filter PyChar.isalnum (slug_body (String c EmptyString))
  = str_filter PyChar.isalnum (str_lower (String c EmptyString)).
Proof. each_char c. Qed.

Lemma char_kept_or_hyphen c :
  str_all (fun x => kept x || is_hyphen x) (slug_body (String c EmptyString)) = true.
Proof. each_char c. Qed.

Lemma char_token c :
  negb (is_sep c) = true ->
  slug_body (String c EmptyString) = str_filter kept (str_lower (String c EmptyString)).
Proof. each_char c. Qed.

Lemma hyphenate_not_sep c : negb (is_sep (hyphenate c)) = true.
Proof. each_char c. Qed.

Lemma is_digit_not_sep c : is_digit c = true -> negb (is_sep c) = true.
Proof. each_char c. Qed.

Lemma strftime_Ymd_no_sep d :
  str_all (fun c => negb (is_sep c)) (strftime_Ymd d) = true.
Proof.
  rewrite strftime_Ymd_chars. cbn [str_all].
  rewrite !(is_digit_not_sep _ (digit_is_digit _)). reflexivity.
Qed.

Lemma digit_value_digit n : digit_value (digit n) = n mod 10.
Proof.
  unfold digit_value, digit, PyChar.code.
  pose proof (Nat.mod_upper_bound n 10 ltac:(lia)) as H.
  rewrite nat_ascii_embedding by lia. lia.
Qed.

Lemma two_digits n : 10 * ((n / 10) mod 10) + n mod 10 = n mod (10 * 10).
Proof. rewrite (Nat.Div0.mod_mul_r n 10). lia. Qed.

Lemma four_digits n :
  1000 * ((n / 1000) mod 10) + 100 * ((n / 100) mod 10)
  + 10 * ((n / 10) mod 10) + n mod 10
  = n mod (10 * (10 * (10 * 10))).
Proof.
  rewrite (Nat.Div0.mod_mul_r n 10), (Nat.Div0.mod_mul_r (n / 10) 10),
    (Nat.Div0.mod_mul_r (n / 10 / 10) 10).
  rewrite !Nat.Div0.div_div.
  change (10 * 10) with 100. change (100 * 10) with 1000. lia.
Qed.

(** The text [strftime_Ymd] writes spells the date it was given, each
    field within its width (the whole field for a date of [datetime]). *)
Lemma read_strftime_Ymd d :
  read_Ymd (strftime_Ymd d)
  = Some (mkdate (year d mod 10 ^ 4)
            (month d mod 10 ^ 2) (day d mod 10 ^ 2)).
Proof.
  rewrite strftime_Ymd_chars. unfold read_Ymd.
  rewrite !digit_value_digit, four_digits, !two_digits. reflexivity.
Qed.

(** ** The slug, by induction on the title *)

Lemma slug_body_chars t : str_all slug_char (slug_body t) = true.
Proof.
  induction t as [|c t IH]; [reflexivity |].
  rewrite slug_body_cons, str_all_app, char_slug, IH. reflexivity.
Qed.


Lemma slug_body_no_sep t :
  str_all (fun c => negb (is_sep c)) (slug_body t) = true.
Proof.
  unfold slug_body. induction (str_filter kept (str_lower t)) as [|c s IH];
    [reflexivity |].
  cbn [str_map str_all]. now rewrite hyphenate_not_sep, IH.
Qed.

Lemma slug_body_renormalize t :
  slug_body (slug_body t) = str_filter (fun x => negb (is_hyphen x)) (slug_body t).
Proof.
  induction t as [|c t IH]; [reflexivity |].
  rewrite slug_body_cons, slug_body_app, str_filter_app, char_renormalize, IH.
  reflexivity.
Qed.

Lemma slug_body_no_hyphen t :
  str_all (fun c => negb (is_sep c)) t = true ->
  str_all (fun x => negb (is_hyphen x)) (slug_body t) = true.
Proof.
  induction t as [|c t IH]; [reflexivity |].
  cbn [str_all]. intros H. apply andb_true_iff in H as [Hc Ht].
  rewrite slug_body_cons, str_all_app, char_no_hyphen, IH by assumption.
  reflexivity.
Qed.

Lemma slug_body_alnum t :
  str_filter PyChar.isalnum (slug_body t)
  = str_filter PyChar.isalnum (str_lower t).
Proof.
  induction t as [|c t IH]; [reflexivity |].
  rewrite slug_body_cons, str_filter_app, char_alnum_kept, IH.
  rewrite <- str_filter_app. reflexivity.
Qed.

Lemma slug_body_kept_or_hyphen t :
  str_all (fun x => kept x || is_hyphen x) (slug_body t) = true.
Proof.
  induction t as [|c t IH]; [reflexivity |].
  rewrite slug_body_cons, str_all_app, char_kept_or_hyphen, IH. reflexivity.
Qed.

Lemma slug_body_token w :
  str_all (fun c => negb (is_sep c)) w = true ->
  slug_body w = str_filter kept (str_lower w).
Proof.
  induction w as [|c w IH]; [reflexivity |].
  cbn [str_all]. intros H. apply andb_true_iff in H as [Hc Hw].
  rewrite slug_body_cons, char_token, IH by assumption.
  rewrite <- str_filter_app. reflexivity.
Qed.

Lemma slug_body_tokens (ws : list string) :
  Forall (fun w => str_all (fun c => negb (is_sep c)) w = true) ws ->
  slug_body (String.concat " " ws)
  = String.concat "-" (map (fun w => str_filter kept (str_lower w)) ws).
Proof.
  induction 1 as [|w ws Hw Hws IH]; [reflexivity |].
  destruct ws as [|w' ws].
  - cbn [String.concat map]. now apply slug_body_token.
  - change (String.concat " " (w :: w' :: ws))
      with (w +:+ " " +:+ String.concat " " (w' :: ws)).
    rewrite !slug_body_app, IH, slug_body_token by assumption.
    reflexivity.
Qed.

Lemma char_separator c :
  is_sep c = true -> slug_body (String c EmptyString) = "-".
Proof. each_char c. Qed.

(** Tokens joined by one separator, a space or an underscore. *)
Lemma slug_body_tokens_sep (c : ascii) (ws : list string) :
  is_sep c = true ->
  Forall (fun w => str_all (fun c => negb (is_sep c)) w = true) ws ->
  slug_body (String.concat (String c EmptyString) ws)
  = String.concat "-" (map (fun w => str_filter kept (str_lower w)) ws).
Proof.
  intros Hc. induction 1 as [|w ws Hw Hws IH]; [reflexivity |].
  destruct ws as [|w' ws].
  - cbn [String.concat map]. now apply slug_body_token.
  - change (String.concat (String c EmptyString) (w :: w' :: ws))
      with (w +:+ String c EmptyString
            +:+ String.concat (String c EmptyString) (w' :: ws)).
    rewrite !slug_body_app, IH, slug_body_token, char_separator by assumption.
    reflexivity.
Qed.





(** ** The title normalizer: the claims *)

(** C1 (amended): for every title and date the normalizer returns the date
    written as YYYY-MM-DD (four digits, hyphen, two digits, hyphen, two
    digits, spelling the year, month and day), a hyphen, then the title
    lowercased, with every character removed that is neither a word
    character nor whitespace, and with each space and each underscore
    replaced by one hyphen: the replacement is character by character and
    keeps the length, so a run of n separators gives n hyphens. *)
Theorem clean_title_input_spec (d : date) (title : string) :
  let cleaned := str_filter kept (str_lower title) in
  clean_title_input d title
    = strftime_Ymd d +:+ "-" +:+ str_map hyphenate cleaned
  /\ date_shape (strftime_Ymd d) = true
  /\ read_Ymd (strftime_Ymd d)
     = Some (mkdate (year d mod 10 ^ 4)
               (month d mod 10 ^ 2) (day d mod 10 ^ 2))
  /\ String.length (str_map hyphenate cleaned) = String.length cleaned.
Proof.
  intros cleaned. split; [apply clean_title_input_body |].
  split; [apply strftime_Ymd_shape |].
  split; [apply read_strftime_Ymd | apply str_length_map].
Qed.

(** C1 as stated fails: two spaces give two hyphens, where one hyphen per
    run is claimed. *)
Lemma clean_title_input_runs_differ :
  clean_title_input JAN5 "a  b" = "2024-01-05-a--b"
  /\ spec_clean_title_runs JAN5 "a  b" = "2024-01-05-a-b"
  /\ clean_title_input JAN5 "a  b" <> spec_clean_title_runs JAN5 "a  b".
Proof. vm_compute. repeat split; discriminate. Qed.

(** C2 (amended): normalization is idempotent modulo the date prefix for
    every title that has no space and no underscore. (For any title, the
    second pass deletes the hyphens the first one wrote:
    [slug_body_renormalize].) *)
Theorem clean_title_input_idempotent (d : date) (title : string) :
  str_all (fun c => negb (is_sep c)) title = true ->
  clean_title_input d (strip_date_prefix (clean_title_input d title))
  = clean_title_input d title.
Proof.
  intros H. rewrite strip_date_prefix_clean, !clean_title_input_body.
  rewrite slug_body_renormalize, str_filter_all; [reflexivity |].
  now apply slug_body_no_hyphen.
Qed.

Lemma clean_title_input_idempotent_witness :
  clean_title_input JAN5
    (strip_date_prefix (clean_title_input JAN5 "Hello,World!"))
  = clean_title_input JAN5 "Hello,World!".
Proof. apply clean_title_input_idempotent. reflexivity. Defined.

(** C2 as stated fails: the hyphen written for the space of [a b] is
    punctuation to the second pass. *)
Lemma clean_title_input_not_idempotent :
  clean_title_input JAN5 (strip_date_prefix (clean_title_input JAN5 "a b"))
  = "2024-01-05-ab"
  /\ clean_title_input JAN5 "a b" = "2024-01-05-a-b"
  /\ clean_title_input JAN5
       (strip_date_prefix (clean_title_input JAN5 "a b"))
     <> clean_title_input JAN5 "a b".
Proof. vm_compute. repeat split; discriminate. Qed.

(** C7 (amended): for every title the slug after its date is the
    lowercased title without the characters that are neither word
    characters nor whitespace, with each space and each underscore
    replaced by a hyphen and every other character, whitespace other than
    the space included, kept as it is. So tokens without space or
    underscore that single spaces, or single underscores, separate are
    joined by single hyphens, each token lowercased and without its
    punctuation; the slug after its date holds only word characters,
    whitespace and hyphens, and its alphanumeric characters are those of
    the lowercased title, in order; and the title Hello, World! on
    2024-01-05 gives 2024-01-05-hello-world. *)
Theorem clean_title_input_punctuation
    (d : date) (ws : list string) (title : string) :
  Forall (fun w => str_all (fun c => negb (is_sep c)) w = true) ws ->
  clean_title_input d (String.concat " " ws)
    = strftime_Ymd d +:+ "-"
      +:+ String.concat "-" (map (fun w => str_filter kept (str_lower w)) ws)
  /\ clean_title_input d (String.concat "_" ws)
    = strftime_Ymd d +:+ "-"
      +:+ String.concat "-" (map (fun w => str_filter kept (str_lower w)) ws)
  /\ clean_title_input d title
     = strftime_Ymd d +:+ "-"
       +:+ str_map (fun c => if is_sep c then PyChar.HYPHEN else c)
             (str_filter kept (str_lower title))
  /\ str_all (fun c => kept c || is_hyphen c)
       (strip_date_prefix (clean_title_input d title)) = true
  /\ str_filter PyChar.isalnum (strip_date_prefix (clean_title_input d title))
     = str_filter PyChar.isalnum (str_lower title)
  /\ clean_title_input JAN5 "Hello, World!" = "2024-01-05-hello-world".
Proof.
  intros H. rewrite strip_date_prefix_clean, !clean_title_input_body.
  rewrite slug_body_tokens by assumption.
  change "_" with (String PyChar.UNDERSCORE EmptyString).
  rewrite (slug_body_tokens_sep PyChar.UNDERSCORE ws eq_refl H).
  split; [reflexivity |]. split; [reflexivity |]. split; [reflexivity |].
  split; [apply slug_body_kept_or_hyphen |].
  split; [apply slug_body_alnum | reflexivity].
Qed.

Lemma clean_title_input_punctuation_witness :
  clean_title_input JAN5 (String.concat " " ["Hello,"; "World!"])
    = strftime_Ymd JAN5 +:+ "-"
      +:+ String.concat "-"
            (map (fun w => str_filter kept (str_lower w)) ["Hello,"; "World!"]).
Proof.
  apply (clean_title_input_punctuation JAN5 ["Hello,"; "World!"] EmptyString).
  repeat constructor.
Defined.

(** C7 as stated fails: two tokens that a tab separates stay separated by
    the tab. *)
Lemma clean_title_input_keeps_tab :
  clean_title_input JAN5 TITLE_TAB
    = "2024-01-05-hello" +:+ String PyChar.TAB "world"
  /\ spec_clean_title_tokens JAN5 TITLE_TAB = "2024-01-05-hello-world"
  /\ clean_title_input JAN5 TITLE_TAB <> spec_clean_title_tokens JAN5 TITLE_TAB.
Proof. vm_compute. repeat split; discriminate. Qed.



(** C10: for every title the slug begins with the formatted date and a
    hyphen; what follows is the cleaned title with every space and
    underscore replaced by a hyphen, so it holds no space and no
    underscore (nor does the slug as a whole); the empty title gives the
    date and one trailing hyphen. *)
Theorem slug_has_no_space_or_underscore (d : date) (title : string) :
  String.prefix (strftime_Ymd d +:+ "-") (clean_title_input d title) = true
  /\ strip_date_prefix (clean_title_input d title)
     = str_map hyphenate (str_filter kept (str_lower title))
  /\ str_all (fun c => negb (is_sep c))
       (strip_date_prefix (clean_title_input d title)) = true
  /\ str_all (fun c => negb (is_sep c)) (clean_title_input d title) = true
  /\ clean_title_input d EmptyString = strftime_Ymd d +:+ "-".
Proof.
  rewrite strip_date_prefix_clean.
  split.
  { rewrite clean_title_input_body, <- str_app_assoc. apply str_prefix_app. }
  split; [reflexivity |].
  split; [apply slug_body_no_sep |].
  split; [| reflexivity].
  rewrite clean_title_input_body, !str_all_app, slug_body_no_sep.
  rewrite strftime_Ymd_no_sep. reflexivity.
Qed.

(** ** Commands, step by step *)

Lemma bind_eq {A B : Type} (m : M A) (f : A -> M B) (w : world) :
  (m ≫= f) w
  = match m w with
    | (Ok a, w') => f a w'
    | (Raise e, w') => (Raise e, w')
    end.
Proof. reflexivity. Qed.

Lemma bind_ok {A B : Type} (m : M A) (f : A -> M B) (w w' : world) a :
  m w = (Ok a, w') -> (m ≫= f) w = f a w'.
Proof. intros H. now rewrite bind_eq, H. Qed.

Lemma bind_raise {A B : Type} (m : M A) (f : A -> M B) (w w' : world) e :
  m w = (Raise e, w') -> (m ≫= f) w = (Raise e, w').
Proof. intros H. now rewrite bind_eq, H. Qed.

Lemma get_setting_eq w key :
  get_setting (w_view w) key VNone w = (Ok (setting w key), w).
Proof.
  unfold get_setting, setting, raw_setting.
  destruct (w_view w) as [[[j|]]|]; reflexivity.
Qed.

Lemma self_get_setting_eq w key :
  self_get_setting key w = (Ok (setting w key), w).
Proof.
  unfold self_get_setting. erewrite bind_ok by reflexivity. apply get_setting_eq.
Qed.

Lemma str_format_frontmatter (layout published categories tags : value) title :
  str_format FRONTMATTER_TEMPLATE
    [layout; VStr title; published; categories; tags]
  = Some (frontmatter_block (py_str layout) title (py_str published)
            (py_str categories) (py_str tags)).
Proof. reflexivity. Qed.

Lemma create_post_frontmatter_eq w title :
  create_post_frontmatter title w
  = (Ok (frontmatter_block
           (py_str (setting w "default_post_layout")) title
           (py_str (setting w "default_post_published"))
           (py_str (setting w "default_post_categories"))
           (py_str (setting w "default_post_tags"))), w).
Proof.
  unfold create_post_frontmatter.
  do 4 (erewrite bind_ok by apply self_get_setting_eq).
  unfold format. rewrite str_format_frontmatter. reflexivity.
Qed.

Lemma missing_test v :
  negb (truthy v) || py_eq_str v EmptyString = negb (truthy v).
Proof.
  destruct v as [|b|n|s|t x]; cbn [truthy py_eq_str];
    try apply orb_false_r.
  now destruct s.
Qed.

Lemma path_body_eq w b :
  path_string_body b w
  = if truthy (setting w (path_key b))
    then (Ok (setting w (path_key b)), w)
    else (Raise MissingPathException, w).
Proof.
  destruct b; cbn [path_key path_string_body].
  - unfold drafts_path_string_body.
    erewrite bind_ok by apply self_get_setting_eq.
    rewrite missing_test. now destruct (truthy _).
  - unfold posts_path_string_body.
    erewrite bind_ok by reflexivity.
    erewrite bind_ok by apply get_setting_eq.
    rewrite missing_test. now destruct (truthy _).
Qed.

Lemma path_string_unfold b :
  path_string b = catch_errors (path_string_body b).
Proof. now destruct b. Qed.

Lemma path_string_ok w b :
  truthy (setting w (path_key b)) = true ->
  path_string b w = (Ok (setting w (path_key b)), w).
Proof.
  intros H. rewrite path_string_unfold. unfold catch_errors.
  now rewrite path_body_eq, H.
Qed.

Lemma emit_eq e w : emit e w = (Ok tt, with_event e w).
Proof. reflexivity. Qed.

(** The handler of [MissingPathException], case by case. *)
Lemma path_string_missing w b :
  truthy (setting w (path_key b)) = false ->
  path_string b w =
  let w1 := with_event (ErrorMessage MSG_MISSING_PATH) w in
  match w_fs w !! user_settings w with
  | Some _ => (Ok VNone, with_event (OpenFile (user_settings w)) w1)
  | None =>
      let w2 := with_event (ShutilCopy (default_settings w) (user_settings w)) w1 in
      match w_fs w !! default_settings w with
      | Some (File c) =>
          if parent_is_dir (w_fs w) (user_settings w)
          then (Ok VNone,
                with_event (OpenFile (user_settings w))
                  (with_fs (<[user_settings w := File c]> (w_fs w)) w2))
          else (Raise IOError, w2)
      | _ => (Raise IOError, w2)
      end
  end.
Proof.
  intros H. rewrite path_string_unfold. unfold catch_errors.
  rewrite path_body_eq, H.
  unfold error_message, open_file.
  rewrite bind_eq, emit_eq.
  erewrite bind_ok by reflexivity.
  rewrite bind_eq. unfold os_path_exists at 1.
  cbn [w_fs with_event with_trace w_packages].
  fold (user_settings w).
  destruct (w_fs w !! user_settings w) as [n|] eqn:Eu.
  - rewrite bool_decide_eq_true_2 by eauto. reflexivity.
  - rewrite bool_decide_eq_false_2 by (intros [? ?]; discriminate).
    cbn [negb]. rewrite bind_eq. erewrite bind_ok by reflexivity.
    cbn [w_packages with_event with_trace]. fold (default_settings w).
    unfold shutil_copy. rewrite bind_eq, emit_eq.
    erewrite bind_ok by reflexivity.
    cbn [w_fs with_event with_trace].
    destruct (w_fs w !! default_settings w) as [[c|]|] eqn:Ed; try reflexivity.
    rewrite Eu. unfold write_file. cbn [w_fs with_event with_trace].
    rewrite Eu. destruct (parent_is_dir _ _); reflexivity.
Qed.

Lemma title_input_unfold b title :
  title_input b title =
  (post_dir ← path_string b ;
   syntax ← self_get_setting "default_post_syntax" ;
   let file_ext := if py_eq_str syntax "Textile" then ".textile" else ".md" in
   today ← datetime_today ;
   let clean_title := clean_title_input today title +:+ file_ext in
   full_path ← os_path_join post_dir clean_title ;
   there ← os_path_lexists full_path ;
   if (there : bool) return M unit then
     msg ← format ("Jekyll: File already exists at " +:+ QUOTE +:+ "{0}" +:+ QUOTE)
             [VStr full_path] ;
     error_message msg
   else
     frontmatter ← create_post_frontmatter title ;
     create_and_open_file full_path frontmatter).
Proof. reflexivity. Qed.

Lemma title_input_raise w w' b title e :
  path_string b w = (Raise e, w') -> title_input b title w = (Raise e, w').
Proof. intros H. rewrite title_input_unfold. now erewrite bind_raise by exact H. Qed.

Lemma title_input_none w w' b title :
  path_string b w = (Ok VNone, w') ->
  title_input b title w = (Raise TypeError, w').
Proof.
  intros H. rewrite title_input_unfold.
  erewrite bind_ok by exact H.
  erewrite bind_ok by apply self_get_setting_eq.
  erewrite bind_ok by reflexivity.
  reflexivity.
Qed.

Lemma str_format_exists full_path :
  str_format ("Jekyll: File already exists at " +:+ QUOTE +:+ "{0}" +:+ QUOTE)
    [VStr full_path]
  = Some (MSG_EXISTS full_path).
Proof. reflexivity. Qed.

Lemma title_input_configured w b title post_dir :
  setting w (path_key b) = VStr post_dir ->
  post_dir <> EmptyString ->
  title_input b title w =
  if bool_decide (is_Some (w_fs w !! destination w post_dir title))
  then (Ok tt, with_event (ErrorMessage (MSG_EXISTS (destination w post_dir title))) w)
  else (frontmatter ← create_post_frontmatter title ;
        create_and_open_file (destination w post_dir title) frontmatter) w.
Proof.
  intros Hp Hne. rewrite title_input_unfold.
  erewrite bind_ok; cycle 1.
  { apply path_string_ok. rewrite Hp. cbn [truthy].
    destruct post_dir; [congruence | reflexivity]. }
  erewrite bind_ok by apply self_get_setting_eq.
  erewrite bind_ok by reflexivity.
  rewrite Hp. cbn [os_path_join].
  erewrite bind_ok by reflexivity.
  erewrite bind_ok by reflexivity.
  fold (file_ext w). fold (destination w post_dir title).
  destruct (bool_decide _); [| reflexivity].
  unfold format. rewrite str_format_exists. reflexivity.
Qed.

Lemma events_since_event w e :
  events_since w (with_event e w) = [e].
Proof. unfold events_since. cbn. apply drop_app_length. Qed.

Lemma events_since_trace w w' l :
  w_trace w' = w_trace w ++ l -> events_since w w' = l.
Proof. unfold events_since. intros ->. apply drop_app_length. Qed.

Ltac trace_eq := cbn; rewrite <- ?app_assoc; reflexivity.

(** A post that is not there yet is created and handed to the editor. *)
Example title_input_creates :
  title_input false "My Post" world_configured
  = (Ok tt,
     with_event
       (RunCommand "jekyll_post_frontmatter"
          "/blog/_posts/2024-01-05-my-post.md"
          (String.concat NL FRONTMATTER_MY_POST +:+ NL +:+ NL))
       (with_fs
          (<["/blog/_posts/2024-01-05-my-post.md" := File EmptyString]>
             fs_installed)
          (with_event (OpenAppend "/blog/_posts/2024-01-05-my-post.md")
             world_configured))).
Proof. vm_compute. reflexivity. Qed.

(** ** The commands: the claims *)

(** C8: the frontmatter builder validates nothing. For every title and
    every world it returns the block with the title as it is and each
    setting as [format] writes it: a string as it is, and [None] for a
    key that is missing. *)
Theorem create_post_frontmatter_verbatim (w : world) (title : string) :
  create_post_frontmatter title w
    = (Ok (frontmatter_block
             (py_str (setting w "default_post_layout")) title
             (py_str (setting w "default_post_published"))
             (py_str (setting w "default_post_categories"))
             (py_str (setting w "default_post_tags"))), w)
  /\ (forall s, py_str (VStr s) = s)
  /\ (forall key,
        py_str (setting w key)
        = match raw_setting w key with
          | Some v => py_str v
          | None => "None"
          end).
Proof.
  split; [apply create_post_frontmatter_eq |].
  split; [reflexivity |].
  intros key. unfold setting. now destruct (raw_setting w key).
Qed.

(** C3 (amended): for the title My Post, layout post, categories [blog],
    tags [] and published true, the builder returns exactly the block of
    seven lines of [FRONTMATTER_MY_POST] (the delimiter, the fields layout,
    title, published, categories, tags in this order, the delimiter, with
    published written True), followed by a blank line. *)
Theorem create_post_frontmatter_my_post (w : world) :
  setting w "default_post_layout" = VStr "post" ->
  setting w "default_post_categories" = VStr "[blog]" ->
  setting w "default_post_tags" = VStr "[]" ->
  setting w "default_post_published" = VBool true ->
  exists frontmatter,
    create_post_frontmatter "My Post" w = (Ok frontmatter, w)
    /\ frontmatter = String.concat NL FRONTMATTER_MY_POST +:+ NL +:+ NL
    /\ text_lines frontmatter = FRONTMATTER_MY_POST ++ [EmptyString]
    /\ length FRONTMATTER_MY_POST = 7.
Proof.
  intros Hl Hc Ht Hp. eexists. split.
  - rewrite create_post_frontmatter_eq, Hl, Hc, Ht, Hp. reflexivity.
  - repeat split; reflexivity.
Qed.

Lemma create_post_frontmatter_my_post_witness :
  exists frontmatter,
    create_post_frontmatter "My Post" world_configured
      = (Ok frontmatter, world_configured)
    /\ frontmatter = String.concat NL FRONTMATTER_MY_POST +:+ NL +:+ NL
    /\ text_lines frontmatter = FRONTMATTER_MY_POST ++ [EmptyString]
    /\ length FRONTMATTER_MY_POST = 7.
Proof.
  apply (create_post_frontmatter_my_post world_configured); reflexivity.
Defined.

(** C3 as stated fails: the text is no block of six lines followed by a
    blank line, it has seven lines before the blank one. *)
Lemma create_post_frontmatter_not_six_lines :
  exists frontmatter,
    fst (create_post_frontmatter "My Post" world_configured) = Ok frontmatter
    /\ length (text_lines frontmatter) = 7 + 1
    /\ ~ (exists block : list string,
            length block = 6 /\ text_lines frontmatter = block ++ [EmptyString]).
Proof.
  eexists. split; [vm_compute; reflexivity |].
  split; [reflexivity |].
  intros (block & Hlen & Heq). apply (f_equal (@length string)) in Heq.
  rewrite length_app, Hlen in Heq. vm_compute in Heq. discriminate.
Qed.

(** C4: when the path setting is a directory name and the destination
    computed from it already exists, the command shows the error message
    and returns; the world is the one it started in but for that message:
    the file system is untouched, nothing else was done. *)
Theorem title_input_existing_file (w : world) (IS_DRAFT : bool)
    (title post_dir : string) :
  setting w (path_key IS_DRAFT) = VStr post_dir ->
  post_dir <> EmptyString ->
  is_Some (w_fs w !! destination w post_dir title) ->
  title_input IS_DRAFT title w
    = (Ok tt,
       with_event (ErrorMessage (MSG_EXISTS (destination w post_dir title))) w)
  /\ w_fs (snd (title_input IS_DRAFT title w)) = w_fs w
  /\ events_since w (snd (title_input IS_DRAFT title w))
     = [ErrorMessage (MSG_EXISTS (destination w post_dir title))].
Proof.
  intros Hp Hne Hex.
  rewrite (title_input_configured w IS_DRAFT title post_dir Hp Hne).
  rewrite bool_decide_eq_true_2 by assumption.
  split; [reflexivity |]. split; [reflexivity |].
  apply events_since_event.
Qed.

Lemma title_input_existing_file_witness :
  title_input false "My Post" world_taken
  = (Ok tt,
     with_event
       (ErrorMessage (MSG_EXISTS "/blog/_posts/2024-01-05-my-post.md"))
       world_taken).
Proof.
  apply (title_input_existing_file world_taken false "My Post" "/blog/_posts").
  - reflexivity.
  - discriminate.
  - vm_compute. eauto.
Defined.

(** C5 (amended): when the path setting of the command is missing or
    empty (any value Python counts as false), the first thing the command
    does is to show the message of the missing path; it never opens the
    post file nor runs the frontmatter command; no file but the user
    settings file is touched. With a user settings file in place that file
    is opened; with none, and the bundled default on disk to copy into an
    existing [User] directory, the default is copied and the copy is
    opened; the command then ends in the [TypeError] of joining [None] to
    the file name. With no user settings file and no default that can be
    copied, the [IOError] of the copy ends the command and no settings
    file is opened. *)
Theorem title_input_missing_path (w : world) (IS_DRAFT : bool) (title : string) :
  truthy (setting w (path_key IS_DRAFT)) = false ->
  let r := title_input IS_DRAFT title w in
  (exists rest,
      events_since w (snd r) = ErrorMessage MSG_MISSING_PATH :: rest)
  /\ forallb (fun e => negb (is_creation e)) (events_since w (snd r)) = true
  /\ (forall p, p <> user_settings w -> w_fs (snd r) !! p = w_fs w !! p)
  /\ (is_Some (w_fs w !! user_settings w) ->
      r = (Raise TypeError,
           with_event (OpenFile (user_settings w))
             (with_event (ErrorMessage MSG_MISSING_PATH) w)))
  /\ (forall c,
        w_fs w !! user_settings w = None ->
        w_fs w !! default_settings w = Some (File c) ->
        parent_is_dir (w_fs w) (user_settings w) = true ->
        r = (Raise TypeError,
             with_event (OpenFile (user_settings w))
               (with_fs (<[user_settings w := File c]> (w_fs w))
                  (with_event
                     (ShutilCopy (default_settings w) (user_settings w))
                     (with_event (ErrorMessage MSG_MISSING_PATH) w)))))
  /\ (w_fs w !! user_settings w = None ->
      (forall c,
          w_fs w !! default_settings w = Some (File c) ->
          parent_is_dir (w_fs w) (user_settings w) = false) ->
      r = (Raise IOError,
           with_event (ShutilCopy (default_settings w) (user_settings w))
             (with_event (ErrorMessage MSG_MISSING_PATH) w))).
Proof.
  intros H r. pose proof (path_string_missing w IS_DRAFT H) as Hp.
  cbv zeta in Hp. unfold r.
  destruct (w_fs w !! user_settings w) as [n|] eqn:Eu;
    [| destruct (w_fs w !! default_settings w) as [[c|]|] eqn:Ed;
       [destruct (parent_is_dir (w_fs w) (user_settings w)) eqn:Epar |..]];
    first [ rewrite (title_input_none _ _ _ _ Hp)
          | rewrite (title_input_raise _ _ _ _ _ Hp) ];
    cbn [snd]; repeat split;
    try (eexists; apply events_since_trace; trace_eq);
    try (erewrite events_since_trace by trace_eq; reflexivity);
    try (intros p Hne; cbn; now rewrite ?lookup_insert_ne by done);
    try (intros [? ?]; discriminate);
    try (intros _ Hc; discriminate (Hc _ eq_refl));
    intros; congruence.
Qed.

Lemma title_input_missing_path_witness :
  title_input false "My Post" world_unconfigured
  = (Raise TypeError,
     with_event (OpenFile "/pkg/User/Jekyll.sublime-settings")
       (with_fs
          (<["/pkg/User/Jekyll.sublime-settings" := File "{}"]> fs_installed)
          (with_event
             (ShutilCopy "/pkg/Jekyll/Jekyll.sublime-settings"
                "/pkg/User/Jekyll.sublime-settings")
             (with_event (ErrorMessage MSG_MISSING_PATH) world_unconfigured)))).
Proof.
  destruct (title_input_missing_path world_unconfigured false "My Post" eq_refl)
    as (_ & _ & _ & _ & H & _).
  apply (H "{}"); reflexivity.
Defined.

(** C5 as stated fails: with no user settings file and no default on disk
    the copy raises, and no settings file is opened. *)
Lemma title_input_settings_not_opened :
  truthy (setting world_archive (path_key false)) = false
  /\ title_input false "My Post" world_archive
     = (Raise IOError,
        with_event
          (ShutilCopy "/pkg/Jekyll/Jekyll.sublime-settings"
             "/pkg/User/Jekyll.sublime-settings")
          (with_event (ErrorMessage MSG_MISSING_PATH) world_archive))
  /\ w_trace (snd (title_input false "My Post" world_archive))
     = [ErrorMessage MSG_MISSING_PATH;
        ShutilCopy "/pkg/Jekyll/Jekyll.sublime-settings"
          "/pkg/User/Jekyll.sublime-settings"]
  /\ ~ In (OpenFile "/pkg/User/Jekyll.sublime-settings")
         (w_trace (snd (title_input false "My Post" world_archive))).
Proof.
  repeat split; try reflexivity.
  vm_compute. intros [H|[H|[]]]; discriminate.
Qed.

(** C6 (amended): an exception other than [MissingPathException] that is
    raised inside a method wrapped by [catch_errors] (the two path methods)
    is caught there, logged and reported with the message of the unknown
    error, and the method returns [None]. *)
Theorem catch_errors_unknown (fn : M value) (w w' : world) (e : exn) :
  fn w = (Raise e, w') ->
  e <> MissingPathException ->
  catch_errors fn w
  = (Ok VNone,
     with_event (ErrorMessage MSG_UNKNOWN) (with_event (PrintExc e) w')).
Proof.
  intros H Hne. unfold catch_errors. rewrite H.
  destruct e; [congruence | reflexivity..].
Qed.

Lemma catch_errors_unknown_witness :
  catch_errors (raise TypeError) world_configured
  = (Ok VNone,
     with_event (ErrorMessage MSG_UNKNOWN)
       (with_event (PrintExc TypeError) world_configured)).
Proof.
  apply (catch_errors_unknown (raise TypeError) world_configured world_configured).
  - reflexivity.
  - discriminate.
Defined.

(** C6 as stated fails: [title_input] is not wrapped. With no path
    configured its [TypeError] leaves the command, and so does the
    [IOError] of a posts directory that does not exist; neither is logged
    or reported. *)
Lemma title_input_exception_escapes :
  (fst (title_input false "My Post" world_unconfigured) = Raise TypeError
   /\ ~ In (ErrorMessage MSG_UNKNOWN)
          (w_trace (snd (title_input false "My Post" world_unconfigured))))
  /\ (fst (title_input false "My Post" world_no_directory) = Raise IOError
      /\ w_trace (snd (title_input false "My Post" world_no_directory))
         = [OpenAppend "/gone/_posts/2024-01-05-my-post.md"]).
Proof.
  split; split; try reflexivity.
  vm_compute. intros [H|[H|[H|[]]]]; discriminate.
Qed.

(** * More of the plugin *)

(** ** Paths *)

Lemma str_eqb_empty_cons c s : String.eqb (String c s) EmptyString = false.
Proof. reflexivity. Qed.

Lemma rsplit_slash_no_slash s :
  str_all not_slash s = true -> rsplit_slash s = (EmptyString, s).
Proof.
  induction s as [|c s IH]; [reflexivity |].
  cbn [str_all rsplit_slash]. intros H. apply andb_true_iff in H as [Hc Hs].
  rewrite (IH Hs). cbn. unfold not_slash in Hc.
  destruct (Ascii.eqb c PyChar.SLASH); [discriminate | reflexivity].
Qed.

Lemma rsplit_slash_dir x b :
  str_all not_slash b = true ->
  rsplit_slash ((x +:+ "/") +:+ b) = (x +:+ "/", b).
Proof.
  intros Hb. induction x as [|c x IH].
  - change ((EmptyString +:+ "/") +:+ b) with (String PyChar.SLASH b).
    cbn [rsplit_slash]. rewrite (rsplit_slash_no_slash b Hb). reflexivity.
  - rewrite !str_app_cons. cbn [rsplit_slash]. rewrite IH.
    destruct x; reflexivity.
Qed.

Lemma str_last_cons c s :
  str_last (String c s)
  = match s with EmptyString => Some c | String _ _ => str_last s end.
Proof. destruct s; reflexivity. Qed.

Lemma endswith_slash_inv a :
  endswith_slash a = true -> exists x, a = x +:+ "/".
Proof.
  induction a as [|c a IH]; [discriminate |].
  unfold endswith_slash. rewrite str_last_cons. destruct a as [|c' a'].
  - intros H. apply Ascii.eqb_eq in H as ->. now exists EmptyString.
  - intros H. destruct (IH H) as [x Hx]. exists (String c x).
    now rewrite str_app_cons, <- Hx.
Qed.

Lemma all_slashes_endswith a :
  a <> EmptyString -> all_slashes a = true -> endswith_slash a = true.
Proof.
  induction a as [|c a IH]; [congruence |].
  intros _. cbn [all_slashes]. intros H. apply andb_true_iff in H as [Hc Ha].
  unfold endswith_slash. rewrite str_last_cons. destruct a as [|c' a'].
  - exact Hc.
  - apply IH; [discriminate | exact Ha].
Qed.

Lemma rstrip_slash_dir x : rstrip_slash (x +:+ "/") = rstrip_slash x.
Proof.
  induction x as [|c x IH]; [reflexivity |].
  rewrite str_app_cons. cbn [rstrip_slash]. now rewrite IH.
Qed.

Lemma all_slashes_dir x : all_slashes (x +:+ "/") = all_slashes x.
Proof.
  induction x as [|c x IH]; [reflexivity |].
  rewrite str_app_cons. cbn [all_slashes]. now rewrite IH.
Qed.

Lemma rstrip_slash_empty s :
  rstrip_slash s = EmptyString <-> all_slashes s = true.
Proof.
  induction s as [|c s IH]; [easy |].
  cbn [rstrip_slash all_slashes].
  destruct (rstrip_slash s) as [|r rs] eqn:Er.
  - destruct IH as [IH1 _]. rewrite (IH1 eq_refl), andb_true_r. cbn.
    destruct (Ascii.eqb c PyChar.SLASH); easy.
  - cbn. split; [discriminate |]. intros H.
    apply andb_true_iff in H as [_ H]. apply IH in H. discriminate.
Qed.

Lemma rstrip_slash_idem s : rstrip_slash (rstrip_slash s) = rstrip_slash s.
Proof.
  induction s as [|c s IH]; [reflexivity |].
  cbn [rstrip_slash].
  destruct (String.eqb (rstrip_slash s) EmptyString && Ascii.eqb c PyChar.SLASH)
    eqn:E; [reflexivity |].
  cbn [rstrip_slash]. now rewrite IH, E.
Qed.

Lemma dir_key_idem d : dir_key (dir_key d) = dir_key d.
Proof.
  unfold dir_key. destruct (all_slashes d) eqn:E; [now rewrite E |].
  destruct (all_slashes (rstrip_slash d)) eqn:E'; [reflexivity |].
  apply rstrip_slash_idem.
Qed.

Lemma dir_key_nonempty d : d <> EmptyString -> dir_key d <> EmptyString.
Proof.
  intros Hd. unfold dir_key. destruct (all_slashes d) eqn:E; [exact Hd |].
  intros H. apply rstrip_slash_empty in H. congruence.
Qed.

Lemma startswith_no_slash b :
  str_all not_slash b = true -> startswith_slash b = false.
Proof.
  destruct b as [|c b]; [reflexivity |]. cbn [str_all startswith_slash].
  unfold not_slash. intros H. apply andb_true_iff in H as [H _].
  now destruct (Ascii.eqb c PyChar.SLASH).
Qed.

(** Splitting what was joined gives the name back, and the directory
    without its trailing slashes. *)
Lemma posix_split_join a b :
  str_all not_slash b = true ->
  posix_split (posix_join a b) = (dir_key a, b).
Proof.
  intros Hb. unfold posix_join. rewrite (startswith_no_slash b Hb).
  destruct a as [|c a].
  - cbn [String.eqb orb]. rewrite str_app_nil_l. unfold posix_split.
    rewrite (rsplit_slash_no_slash b Hb). reflexivity.
  - rewrite str_eqb_empty_cons. cbn [orb].
    destruct (endswith_slash (String c a)) eqn:E.
    + destruct (endswith_slash_inv _ E) as [x Hx]. rewrite Hx.
      unfold posix_split. rewrite (rsplit_slash_dir x b Hb).
      replace (String.eqb (x +:+ "/") EmptyString) with false
        by now destruct x.
      unfold dir_key. now destruct (all_slashes (x +:+ "/")).
    + unfold posix_split. rewrite <- str_app_assoc.
      rewrite (rsplit_slash_dir (String c a) b Hb).
      rewrite str_app_cons, str_eqb_empty_cons, <- str_app_cons.
      rewrite all_slashes_dir, rstrip_slash_dir. unfold dir_key.
      assert (Hall : all_slashes (String c a) = false).
      { destruct (all_slashes (String c a)) eqn:Ha; [| reflexivity].
        apply all_slashes_endswith in Ha; [congruence | discriminate]. }
      rewrite Hall. reflexivity.
Qed.

Lemma str_all_impl (p q : ascii -> bool) s :
  (forall c, p c = true -> q c = true) ->
  str_all p s = true -> str_all q s = true.
Proof.
  intros Hpq. induction s as [|c s IH]; [reflexivity |].
  cbn [str_all]. intros H. apply andb_true_iff in H as [Hc Hs].
  now rewrite (Hpq c Hc), IH.
Qed.

Lemma slug_char_not_slash c : slug_char c = true -> not_slash c = true.
Proof. each_char c. Qed.

Lemma is_digit_not_slash c : is_digit c = true -> not_slash c = true.
Proof. each_char c. Qed.

Lemma post_name_no_slash w title : str_all not_slash (post_name w title) = true.
Proof.
  unfold post_name. rewrite clean_title_input_body, !str_all_app.
  rewrite (str_all_impl _ _ _ slug_char_not_slash (slug_body_chars title)).
  rewrite strftime_Ymd_chars. cbn [str_all].
  rewrite !(is_digit_not_slash _ (digit_is_digit _)).
  unfold file_ext. now destruct (py_eq_str _ _).
Qed.

Lemma post_name_nonempty w title :
  String.eqb (post_name w title) EmptyString = false.
Proof.
  unfold post_name. rewrite clean_title_input_body, strftime_Ymd_chars.
  reflexivity.
Qed.

Lemma destination_split w dir title :
  posix_split (destination w dir title) = (dir_key dir, post_name w title).
Proof. apply posix_split_join, post_name_no_slash. Qed.

(** ** Opening and creating *)

Lemma open_append_eq q w :
  open_append q w =
  let w1 := with_event (OpenAppend q) w in
  match w_fs w !! q with
  | Some (File _) => (Ok tt, w1)
  | Some Dir => (Raise IOError, w1)
  | None =>
      if parent_is_dir (w_fs w) q
      then (Ok tt, with_fs (<[q := File EmptyString]> (w_fs w)) w1)
      else (Raise IOError, w1)
  end.
Proof.
  unfold open_append. rewrite bind_eq, emit_eq.
  erewrite bind_ok by reflexivity.
  cbn [w_fs with_event with_trace].
  destruct (w_fs w !! q) as [[c|]|] eqn:E; try reflexivity.
  unfold write_file. cbn [w_fs with_event with_trace]. rewrite E.
  now destruct (parent_is_dir _ _).
Qed.

Lemma create_file_destination w dir title :
  create_file (destination w dir title) = open_append (created_path w dir title).
Proof.
  unfold create_file. rewrite destination_split, post_name_nonempty.
  reflexivity.
Qed.

Lemma parent_of_created w dir title fs :
  dir <> EmptyString ->
  parent_is_dir fs (created_path w dir title)
  = match fs !! dir_key dir with Some Dir => true | _ => false end.
Proof.
  intros Hd. unfold parent_is_dir, created_path. fold (dir_key dir).
  rewrite (posix_split_join _ _ (post_name_no_slash w title)).
  cbn [fst]. rewrite dir_key_idem.
  destruct (String.eqb_spec (dir_key dir) EmptyString) as [E|E];
    [now apply dir_key_nonempty in E | reflexivity].
Qed.

(** [title_input] from the point where the destination is known to be
    free. *)
Lemma title_input_free w b title dir :
  setting w (path_key b) = VStr dir ->
  dir <> EmptyString ->
  w_fs w !! destination w dir title = None ->
  title_input b title w =
  (create_and_open_file (destination w dir title)
     (frontmatter_block
        (py_str (setting w "default_post_layout")) title
        (py_str (setting w "default_post_published"))
        (py_str (setting w "default_post_categories"))
        (py_str (setting w "default_post_tags")))) w.
Proof.
  intros Hp Hne Hfree. rewrite (title_input_configured w b title dir Hp Hne).
  rewrite bool_decide_eq_false_2 by (rewrite Hfree; intros [? ?]; discriminate).
  now erewrite bind_ok by apply create_post_frontmatter_eq.
Qed.

Lemma create_and_open_file_eq w dir title fm :
  dir <> EmptyString ->
  create_and_open_file (destination w dir title) fm w =
  let q := created_path w dir title in
  let w1 := with_event (OpenAppend q) w in
  let run_on w2 :=
    match w_view w with
    | Some _ =>
        (Ok tt,
         with_event
           (RunCommand "jekyll_post_frontmatter" (destination w dir title) fm) w2)
    | None => (Raise AttributeError, w2)
    end in
  match w_fs w !! q with
  | Some (File _) => run_on w1
  | Some Dir => (Raise IOError, w1)
  | None =>
      match w_fs w !! dir_key dir with
      | Some Dir => run_on (with_fs (<[q := File EmptyString]> (w_fs w)) w1)
      | _ => (Raise IOError, w1)
      end
  end.
Proof.
  intros Hd. unfold create_and_open_file.
  rewrite create_file_destination, bind_eq, open_append_eq.
  rewrite (parent_of_created w dir title _ Hd). cbv zeta.
  destruct (w_fs w !! created_path w dir title) as [[c|]|] eqn:E;
    [| reflexivity |].
  - erewrite bind_ok by reflexivity. cbn [w_view with_event with_trace].
    now destruct (w_view w).
  - destruct (w_fs w !! dir_key dir) as [[c|]|] eqn:Ed; try reflexivity.
    erewrite bind_ok by reflexivity.
    cbn [w_view with_event with_trace with_fs]. now destruct (w_view w).
Qed.

Lemma title_input_wrong_type w b title :
  truthy (setting w (path_key b)) = true ->
  (forall s, setting w (path_key b) <> VStr s) ->
  title_input b title w = (Raise TypeError, w).
Proof.
  intros Ht Hv. rewrite title_input_unfold.
  erewrite bind_ok by (apply path_string_ok; exact Ht).
  erewrite bind_ok by apply self_get_setting_eq.
  erewrite bind_ok by reflexivity.
  destruct (setting w (path_key b)) as [|x|n|s|t x]; try reflexivity.
  now destruct (Hv s).
Qed.

Lemma catch_errors_missing (fn : M value) w w1 :
  fn w = (Raise MissingPathException, w1) ->
  catch_errors fn w =
  let w2 := with_event (ErrorMessage MSG_MISSING_PATH) w1 in
  match w_fs w1 !! user_settings w1 with
  | Some _ => (Ok VNone, with_event (OpenFile (user_settings w1)) w2)
  | None =>
      let w3 :=
        with_event (ShutilCopy (default_settings w1) (user_settings w1)) w2 in
      match w_fs w1 !! default_settings w1 with
      | Some (File c) =>
          if parent_is_dir (w_fs w1) (user_settings w1)
          then (Ok VNone,
                with_event (OpenFile (user_settings w1))
                  (with_fs (<[user_settings w1 := File c]> (w_fs w1)) w3))
          else (Raise IOError, w3)
      | _ => (Raise IOError, w3)
      end
  end.
Proof.
  intros H. unfold catch_errors. rewrite H.
  unfold error_message, open_file.
  rewrite bind_eq, emit_eq.
  erewrite bind_ok by reflexivity.
  rewrite bind_eq. unfold os_path_exists at 1.
  cbn [w_fs with_event with_trace w_packages].
  fold (user_settings w1).
  destruct (w_fs w1 !! user_settings w1) as [n|] eqn:Eu.
  - rewrite bool_decide_eq_true_2 by eauto. reflexivity.
  - rewrite bool_decide_eq_false_2 by (intros [? ?]; discriminate).
    cbn [negb]. rewrite bind_eq. erewrite bind_ok by reflexivity.
    cbn [w_packages with_event with_trace]. fold (default_settings w1).
    unfold shutil_copy. rewrite bind_eq, emit_eq.
    erewrite bind_ok by reflexivity.
    cbn [w_fs with_event with_trace].
    destruct (w_fs w1 !! default_settings w1) as [[c|]|] eqn:Ed; try reflexivity.
    rewrite Eu. unfold write_file. cbn [w_fs with_event with_trace].
    rewrite Eu. destruct (parent_is_dir _ _); reflexivity.
Qed.

(** With no usable path the command ends in an exception, after the
    message. *)
Lemma title_input_missing_outcome w b title :
  truthy (setting w (path_key b)) = false ->
  exists e w',
    title_input b title w = (Raise e, w')
    /\ (exists rest, events_since w w' = ErrorMessage MSG_MISSING_PATH :: rest)
    /\ (w_fs w' = w_fs w
        \/ exists c, w_fs w !! user_settings w = None
                     /\ w_fs w' = <[user_settings w := File c]> (w_fs w)).
Proof.
  intros H. pose proof (path_string_missing w b H) as Hp. cbv zeta in Hp.
  destruct (w_fs w !! user_settings w) as [n|] eqn:Eu;
    [| destruct (w_fs w !! default_settings w) as [[c|]|] eqn:Ed;
       [destruct (parent_is_dir (w_fs w) (user_settings w)) eqn:Epar |..]];
    first [ rewrite (title_input_none _ _ _ title Hp)
          | rewrite (title_input_raise _ _ _ title _ Hp) ];
    do 2 eexists; (split; [reflexivity |]);
    (split; [eexists; apply events_since_trace; trace_eq |]);
    first [ left; reflexivity | right; eexists; split; reflexivity ].
Qed.

(** X1: whatever the title, the destination splits into the configured
    directory (without its trailing slashes) and the slug with its
    extension; the file name holds no slash, so a title cannot name
    another directory. *)
Theorem post_stays_in_directory (w : world) (post_dir title : string) :
  posix_split (destination w post_dir title)
  = (dir_key post_dir, clean_title_input (w_today w) title +:+ file_ext w)
  /\ str_all not_slash (clean_title_input (w_today w) title +:+ file_ext w) = true.
Proof. split; [apply destination_split | apply post_name_no_slash]. Qed.

(** X2: with a directory configured that exists, a destination that is
    free and a view active, the command creates the post as an empty file
    and hands the path and the frontmatter of the title to the
    [jekyll_post_frontmatter] command; nothing else happens. *)
Theorem title_input_creates_post (w : world) (IS_DRAFT : bool)
    (title post_dir : string) (v : view) :
  setting w (path_key IS_DRAFT) = VStr post_dir ->
  post_dir <> EmptyString ->
  w_view w = Some v ->
  w_fs w !! dir_key post_dir = Some Dir ->
  w_fs w !! destination w post_dir title = None ->
  w_fs w !! created_path w post_dir title = None ->
  title_input IS_DRAFT title w
  = (Ok tt,
     with_event
       (RunCommand "jekyll_post_frontmatter" (destination w post_dir title)
          (frontmatter_block
             (py_str (setting w "default_post_layout")) title
             (py_str (setting w "default_post_published"))
             (py_str (setting w "default_post_categories"))
             (py_str (setting w "default_post_tags"))))
       (with_fs
          (<[created_path w post_dir title := File EmptyString]> (w_fs w))
          (with_event (OpenAppend (created_path w post_dir title)) w))).
Proof.
  intros Hp Hne Hv Hd Hfree Hq.
  rewrite (title_input_free w IS_DRAFT title post_dir Hp Hne Hfree).
  rewrite create_and_open_file_eq by assumption. cbv zeta.
  now rewrite Hq, Hd, Hv.
Qed.

Lemma title_input_creates_post_witness :
  title_input false "My Post" world_configured
  = (Ok tt,
     with_event
       (RunCommand "jekyll_post_frontmatter"
          "/blog/_posts/2024-01-05-my-post.md"
          (frontmatter_block "post" "My Post" "True" "[blog]" "[]"))
       (with_fs
          (<["/blog/_posts/2024-01-05-my-post.md" := File EmptyString]>
             fs_installed)
          (with_event (OpenAppend "/blog/_posts/2024-01-05-my-post.md")
             world_configured))).
Proof.
  apply (title_input_creates_post world_configured false "My Post"
           "/blog/_posts" (mkview None));
    first [reflexivity | discriminate].
Defined.

(** X3: with no active view the post is still created, empty, and the
    command then ends in the [AttributeError] of [view.run_command]: the
    frontmatter command is never run. *)
Theorem title_input_without_view (w : world) (IS_DRAFT : bool)
    (title post_dir : string) :
  setting w (path_key IS_DRAFT) = VStr post_dir ->
  post_dir <> EmptyString ->
  w_view w = None ->
  w_fs w !! dir_key post_dir = Some Dir ->
  w_fs w !! destination w post_dir title = None ->
  w_fs w !! created_path w post_dir title = None ->
  title_input IS_DRAFT title w
  = (Raise AttributeError,
     with_fs (<[created_path w post_dir title := File EmptyString]> (w_fs w))
       (with_event (OpenAppend (created_path w post_dir title)) w)).
Proof.
  intros Hp Hne Hv Hd Hfree Hq.
  rewrite (title_input_free w IS_DRAFT title post_dir Hp Hne Hfree).
  rewrite create_and_open_file_eq by assumption. cbv zeta.
  now rewrite Hq, Hd, Hv.
Qed.

(** X4: when the configured posts directory is not a directory of the
    file system, the command ends in the [IOError] of [open]; nothing is
    created and the frontmatter command is not run. *)
Theorem title_input_directory_missing (w : world) (IS_DRAFT : bool)
    (title post_dir : string) :
  setting w (path_key IS_DRAFT) = VStr post_dir ->
  post_dir <> EmptyString ->
  w_fs w !! dir_key post_dir <> Some Dir ->
  w_fs w !! destination w post_dir title = None ->
  w_fs w !! created_path w post_dir title = None ->
  title_input IS_DRAFT title w
  = (Raise IOError, with_event (OpenAppend (created_path w post_dir title)) w).
Proof.
  intros Hp Hne Hd Hfree Hq.
  rewrite (title_input_free w IS_DRAFT title post_dir Hp Hne Hfree).
  rewrite create_and_open_file_eq by assumption. cbv zeta.
  rewrite Hq. now destruct (w_fs w !! dir_key post_dir) as [[c|]|].
Qed.

Lemma title_input_directory_missing_witness :
  title_input false "My Post" world_no_directory
  = (Raise IOError,
     with_event (OpenAppend "/gone/_posts/2024-01-05-my-post.md")
       world_no_directory).
Proof.
  apply (title_input_directory_missing world_no_directory false "My Post"
           "/gone/_posts");
    first [reflexivity | discriminate].
Defined.

(** X5: whatever the settings, the title and the outcome, [title_input]
    leaves every entry the file system had as it was: it never replaces,
    truncates or removes an existing file or directory. *)
Theorem title_input_keeps_existing_entries (w : world) (IS_DRAFT : bool)
    (title k : string) :
  is_Some (w_fs w !! k) ->
  w_fs (snd (title_input IS_DRAFT title w)) !! k = w_fs w !! k.
Proof.
  intros Hk.
  assert (Hfresh : forall q, w_fs w !! q = None -> q <> k).
  { intros q Eq ->. rewrite Eq in Hk. destruct Hk; discriminate. }
  destruct (truthy (setting w (path_key IS_DRAFT))) eqn:Ht.
  - destruct (setting w (path_key IS_DRAFT)) as [|x|n|dir|t x] eqn:Hs;
      try (rewrite title_input_wrong_type;
           [reflexivity | now rewrite Hs | rewrite Hs; discriminate]).
    assert (Hne : dir <> EmptyString) by (intros ->; discriminate).
    rewrite (title_input_configured w IS_DRAFT title dir Hs Hne).
    destruct (bool_decide _); [reflexivity |].
    erewrite bind_ok by apply create_post_frontmatter_eq.
    rewrite create_and_open_file_eq by assumption. cbv zeta.
    destruct (w_fs w !! created_path w dir title) as [[c|]|] eqn:Eq;
      [now destruct (w_view w) | reflexivity |].
    destruct (w_fs w !! dir_key dir) as [[c|]|];
      [reflexivity | | reflexivity].
    destruct (w_view w); cbn [snd w_fs with_fs with_event with_trace];
      now rewrite lookup_insert_ne by auto.
  - destruct (title_input_missing_outcome w IS_DRAFT title Ht)
      as (e & w' & Hr & _ & [Hfs | (c & Hu & Hfs)]);
      rewrite Hr; cbn [snd]; rewrite Hfs; [reflexivity |].
    now rewrite lookup_insert_ne by auto.
Qed.

Lemma title_input_keeps_existing_entries_witness :
  w_fs (snd (title_input false "My Post" world_configured)) !! "/blog/_posts"
  = w_fs world_configured !! "/blog/_posts".
Proof.
  apply (title_input_keeps_existing_entries world_configured false "My Post").
  vm_compute. eauto.
Defined.

Lemma title_input_without_view_witness :
  title_input false "My Post" world_no_view
  = (Raise AttributeError,
     with_fs
       (<["/blog/_posts/2024-01-05-my-post.md" := File EmptyString]>
          fs_installed)
       (with_event (OpenAppend "/blog/_posts/2024-01-05-my-post.md")
          world_no_view)).
Proof.
  apply (title_input_without_view world_no_view false "My Post" "/blog/_posts");
    first [reflexivity | discriminate].
Defined.

(** X6: when the view has a [Jekyll] dictionary that lacks the path key,
    the global settings are not consulted: the command shows the message
    of the missing path and ends in an exception, whatever the global
    settings hold. *)
Theorem project_settings_hide_global (w : world) (IS_DRAFT : bool)
    (title : string) (jekyll : gmap string value) :
  w_view w = Some (mkview (Some jekyll)) ->
  jekyll !! path_key IS_DRAFT = None ->
  exists e w',
    title_input IS_DRAFT title w = (Raise e, w')
    /\ exists rest, events_since w w' = ErrorMessage MSG_MISSING_PATH :: rest.
Proof.
  intros Hv Hj.
  destruct (title_input_missing_outcome w IS_DRAFT title)
    as (e & w' & H1 & H2 & _).
  { unfold setting, raw_setting. now rewrite Hv, Hj. }
  eauto.
Qed.

Lemma project_settings_hide_global_witness :
  w_global world_project !! "posts_path" = Some (VStr "/blog/_posts")
  /\ exists e w',
       title_input false "My Post" world_project = (Raise e, w')
       /\ exists rest,
            events_since world_project w' = ErrorMessage MSG_MISSING_PATH :: rest.
Proof.
  split; [reflexivity |].
  apply (project_settings_hide_global world_project false "My Post"
           settings_my_post); reflexivity.
Defined.

(** X7: the only exception a method wrapped by [catch_errors] can raise
    is the [IOError] of the copy that seeds the user settings: the wrapped
    body raised [MissingPathException], the user settings file was absent,
    the copy failed, the file system is as it was and the settings file
    was not opened. *)
Theorem catch_errors_only_io_escapes (fn : M value) (w w' : world) (e : exn) :
  catch_errors fn w = (Raise e, w') ->
  e = IOError
  /\ exists w1,
       fn w = (Raise MissingPathException, w1)
       /\ w_fs w1 !! user_settings w1 = None
       /\ w_fs w' = w_fs w1
       /\ events_since w1 w'
          = [ErrorMessage MSG_MISSING_PATH;
             ShutilCopy (default_settings w1) (user_settings w1)].
Proof.
  intros H. destruct (fn w) as [[a|x] w1] eqn:Hfn.
  - unfold catch_errors in H. rewrite Hfn in H. discriminate.
  - assert (Hx : x = MissingPathException).
    { unfold catch_errors in H. rewrite Hfn in H. now destruct x. }
    subst x.
    rewrite (catch_errors_missing fn w w1 Hfn) in H. cbv zeta in H.
    destruct (w_fs w1 !! user_settings w1) as [n|] eqn:Eu; [discriminate |].
    assert (Hshape : (Raise e, w')
              = (Raise IOError : result value,
                 with_event
                   (ShutilCopy (default_settings w1) (user_settings w1))
                   (with_event (ErrorMessage MSG_MISSING_PATH) w1))).
    { destruct (w_fs w1 !! default_settings w1) as [[c|]|];
        [destruct (parent_is_dir _ _); [discriminate |] |..];
        now rewrite <- H. }
    injection Hshape as -> ->. split; [reflexivity |].
    exists w1. repeat split; [exact Eu |].
    apply events_since_trace. trace_eq.
Qed.

Lemma catch_errors_only_io_escapes_witness :
  IOError = IOError
  /\ exists w1,
       raise MissingPathException world_bare
         = (Raise MissingPathException : result value, w1)
       /\ w_fs w1 !! user_settings w1 = None
       /\ w_fs (with_event
                  (ShutilCopy (default_settings world_bare)
                     (user_settings world_bare))
                  (with_event (ErrorMessage MSG_MISSING_PATH) world_bare))
          = w_fs w1
       /\ events_since w1
            (with_event
               (ShutilCopy (default_settings world_bare)
                  (user_settings world_bare))
               (with_event (ErrorMessage MSG_MISSING_PATH) world_bare))
          = [ErrorMessage MSG_MISSING_PATH;
             ShutilCopy (default_settings w1) (user_settings w1)].
Proof.
  apply (catch_errors_only_io_escapes (raise MissingPathException) world_bare).
  reflexivity.
Defined.

(** X8: a path method returns the setting itself, with the world
    untouched, exactly when the setting counts as true; otherwise it
    returns [None] after the message of the missing path, or raises
    [IOError] with the file system unchanged. It never raises
    [MissingPathException] and never returns a false value but [None]. *)
Theorem path_string_result (w : world) (IS_DRAFT : bool) :
  match path_string IS_DRAFT w with
  | (Ok v, w') =>
      if truthy (setting w (path_key IS_DRAFT))
      then v = setting w (path_key IS_DRAFT) /\ w' = w
      else v = VNone
           /\ exists rest,
                events_since w w' = ErrorMessage MSG_MISSING_PATH :: rest
  | (Raise e, w') =>
      e = IOError
      /\ truthy (setting w (path_key IS_DRAFT)) = false
      /\ w_fs w' = w_fs w
  end.
Proof.
  destruct (truthy (setting w (path_key IS_DRAFT))) eqn:Ht.
  - now rewrite (path_string_ok w IS_DRAFT Ht).
  - rewrite (path_string_missing w IS_DRAFT Ht). cbv zeta.
    destruct (w_fs w !! user_settings w) as [n|];
      [| destruct (w_fs w !! default_settings w) as [[c|]|];
         [destruct (parent_is_dir _ _) |..]];
      repeat split;
      try (eexists; apply events_since_trace; trace_eq).
Qed.

(** X10: normalizing a slug body again deletes exactly its hyphens and
    changes nothing else. *)
Theorem clean_title_input_twice (d : date) (title : string) :
  clean_title_input d (strip_date_prefix (clean_title_input d title))
  = strftime_Ymd d +:+ "-"
    +:+ str_filter (fun c => negb (is_hyphen c))
          (strip_date_prefix (clean_title_input d title)).
Proof.
  rewrite strip_date_prefix_clean, clean_title_input_body.
  now rewrite slug_body_renormalize.
Qed.

Lemma lower_idem c : PyChar.lower (PyChar.lower c) = PyChar.lower c.
Proof. each_char c. Qed.

Lemma str_lower_idem s : str_lower (str_lower s) = str_lower s.
Proof.
  induction s as [|c s IH]; [reflexivity |].
  cbn [str_lower]. now rewrite lower_idem, IH.
Qed.

(** X11: titles that differ only in letter case get the same slug, and
    lowercasing a title beforehand changes nothing. *)
Theorem clean_title_input_ignores_case (d : date) (a b : string) :
  str_lower a = str_lower b ->
  clean_title_input d a = clean_title_input d b
  /\ clean_title_input d (str_lower a) = clean_title_input d a.
Proof.
  intros H. unfold clean_title_input. rewrite str_lower_idem, H. easy.
Qed.

Lemma clean_title_input_ignores_case_witness :
  clean_title_input JAN5 "My Post" = clean_title_input JAN5 "MY POST"
  /\ clean_title_input JAN5 (str_lower "My Post")
     = clean_title_input JAN5 "My Post".
Proof. apply clean_title_input_ignores_case. reflexivity. Defined.

(** X12: [create_file] on a path that ends with a slash has an empty
    file name: it opens nothing and changes nothing. *)
Theorem create_file_trailing_slash (w : world) (p : string) :
  endswith_slash p = true -> create_file p w = (Ok tt, w).
Proof.
  intros H. destruct (endswith_slash_inv p H) as [x ->].
  unfold create_file, posix_split.
  rewrite <- (str_app_nil_r (x +:+ "/")).
  rewrite (rsplit_slash_dir x EmptyString eq_refl).
  now destruct (_ && _).
Qed.

Lemma create_file_trailing_slash_witness :
  create_file "/blog/_posts/" world_configured = (Ok tt, world_configured).
Proof. apply create_file_trailing_slash. reflexivity. Defined.

(** ** [splitext] *)

Lemma str_take_drop n s : str_take n s +:+ str_drop n s = s.
Proof.
  revert s. induction n as [|n IH]; intros [|c s]; try reflexivity.
  cbn [str_take str_drop]. now rewrite str_app_cons, IH.
Qed.

Lemma str_take_app (a b : string) : str_take (String.length a) (a +:+ b) = a.
Proof.
  induction a as [|c a IH]; [now destruct b |].
  rewrite str_app_cons. cbn [String.length str_take]. now rewrite IH.
Qed.

Lemma splitext_scan_join p i steps dot :
  fst (splitext_scan p i steps dot) +:+ snd (splitext_scan p i steps dot) = p.
Proof.
  revert i. induction steps as [|steps IH]; intros i.
  - cbn. apply str_app_nil_r.
  - cbn [splitext_scan].
    destruct (String.get i p) as [c|]; [| apply str_take_drop].
    destruct c as [[|] [|] [|] [|] [|] [|] [|] [|]];
      first [apply IH | apply str_take_drop].
Qed.

Lemma rfind_from_none c s i last :
  str_all (fun x => negb (Ascii.eqb x c)) s = true ->
  rfind_from c s i last = last.
Proof.
  revert i last. induction s as [|x s IH]; intros i last; [reflexivity |].
  cbn [str_all rfind_from]. intros H. apply andb_true_iff in H as [Hx Hs].
  rewrite (IH _ _ Hs). now destruct (Ascii.eqb x c).
Qed.

Lemma rfind_from_last c a e i last :
  str_all (fun x => negb (Ascii.eqb x c)) e = true ->
  rfind_from c (a +:+ String c e) i last = (i + Z.of_nat (String.length a))%Z.
Proof.
  intros He. revert i last. induction a as [|x a IH]; intros i last.
  - rewrite str_app_nil_l. cbn [rfind_from String.length].
    rewrite (rfind_from_none _ _ _ _ He), Ascii.eqb_refl. lia.
  - rewrite str_app_cons. cbn [rfind_from String.length]. rewrite IH. lia.
Qed.

Lemma splitext_scan_first p c s n dot :
  p = String c s -> Ascii.eqb c "." = false ->
  splitext_scan p 0 (S n) dot = (str_take dot p, str_drop dot p).
Proof.
  intros -> Hc. cbn [splitext_scan String.get].
  destruct c as [[|] [|] [|] [|] [|] [|] [|] [|]];
    first [reflexivity | discriminate].
Qed.

(** A name that does not begin with a dot splits at its last dot. *)
Lemma posix_splitext_name c stem e :
  not_dot c = true ->
  str_all not_slash (String c stem) = true ->
  str_all not_slash e = true ->
  str_all not_dot e = true ->
  posix_splitext (String c stem +:+ String "." e)
  = (String c stem, String "." e).
Proof.
  intros Hc Hs He Hd. unfold posix_splitext, str_rfind.
  assert (Hp : str_all not_slash (String c stem +:+ String "." e) = true).
  { rewrite str_all_app, Hs. cbn [str_all andb]. exact He. }
  rewrite (rfind_from_none PyChar.SLASH _ _ _ Hp).
  rewrite (rfind_from_last "." (String c stem) e 0 (-1) Hd).
  set (n := String.length (String c stem)).
  assert (Hn : (0 < Z.of_nat n)%Z) by (unfold n; cbn [String.length]; lia).
  replace (-1 <? 0 + Z.of_nat n)%Z with true by (symmetry; apply Z.ltb_lt; lia).
  replace (Z.to_nat (-1 + 1)) with 0 by reflexivity.
  replace (Z.to_nat (0 + Z.of_nat n - (-1 + 1))) with (S (String.length stem))
    by (unfold n; cbn [String.length]; lia).
  replace (Z.to_nat (0 + Z.of_nat n)) with n by lia.
  rewrite str_app_cons.
  erewrite splitext_scan_first; [| reflexivity |].
  2:{ unfold not_dot in Hc. now destruct (Ascii.eqb c "."). }
  rewrite <- str_app_cons. unfold n.
  now rewrite str_take_app, str_drop_app.
Qed.

(** ** The list commands *)

Lemma get_syntax_eq f st :
  ListPosts.get_syntax f st
  = match classify f with
    | Some s => (Some s, ListPosts.set_syntax s st)
    | None => (ListPosts.syntax st, st)
    end.
Proof.
  unfold ListPosts.get_syntax, classify.
  destruct (existsb _ _); [reflexivity |].
  now destruct (str_endswith f ".textile").
Qed.

Lemma classify_recognised f :
  ListPosts.recognised f = match classify f with Some _ => true | None => false end.
Proof.
  unfold ListPosts.recognised, classify.
  destruct (existsb _ _); [reflexivity |].
  now destruct (str_endswith f ".textile").
Qed.

Lemma classify_known f s : classify f = Some s -> ListPosts.known (Some s) = true.
Proof.
  unfold classify. destruct (existsb _ _); [now intros [= <-] |].
  destruct (str_endswith f ".textile"); [now intros [= <-] | discriminate].
Qed.

Lemma known_cases x :
  ListPosts.known x = true -> x = Some "Markdown" \/ x = Some "Textile".
Proof.
  destruct x as [s|]; [| discriminate]. cbn [ListPosts.known].
  intros H. apply orb_true_iff in H as [H|H]; apply String.eqb_eq in H;
    subst; auto.
Qed.

Lemma scan_cons path f rest st :
  ListPosts.scan path (f :: rest) st =
  if ListPosts.known (ListPosts.syntax (seen f st)) then
    match path with
    | VStr p =>
        ListPosts.scan path rest
          (ListPosts.append (ListPosts.entry p f) (seen f st))
    | _ => (Raise TypeError, seen f st)
    end
  else ListPosts.scan path rest (seen f st).
Proof.
  cbn [ListPosts.scan]. unfold seen. rewrite get_syntax_eq.
  destruct (classify f) as [s|] eqn:Ec.
  - pose proof (classify_known f s Ec) as Hk.
    cbn [snd ListPosts.syntax ListPosts.set_syntax]. rewrite Hk.
    destruct (known_cases _ Hk) as [[= ->] | [= ->]].
    + reflexivity.
    + cbn [ListPosts.syntax_is]. replace (String.eqb "Textile" "Markdown")
        with false by reflexivity.
      rewrite get_syntax_eq, Ec. reflexivity.
  - cbn [snd]. destruct (ListPosts.syntax st) as [s|] eqn:Es.
    + cbn [ListPosts.syntax_is ListPosts.known].
      destruct (String.eqb s "Markdown") eqn:Em; [reflexivity |].
      rewrite get_syntax_eq, Ec, Es. cbn [ListPosts.syntax_is orb].
      now destruct (String.eqb s "Textile").
    + cbn [ListPosts.syntax_is ListPosts.known].
      rewrite get_syntax_eq, Ec, Es. reflexivity.
Qed.

Lemma seen_known f st :
  ListPosts.known (ListPosts.syntax st) = true ->
  ListPosts.known (ListPosts.syntax (seen f st)) = true.
Proof.
  intros H. unfold seen. rewrite get_syntax_eq.
  destruct (classify f) as [s|] eqn:Ec; [| exact H].
  exact (classify_known f s Ec).
Qed.

Lemma seen_posts f st : ListPosts.posts (seen f st) = ListPosts.posts st.
Proof.
  unfold seen. rewrite get_syntax_eq. now destruct (classify f).
Qed.

Lemma seen_calls f st : ListPosts.calls (seen f st) = ListPosts.calls st.
Proof.
  unfold seen. rewrite get_syntax_eq. now destruct (classify f).
Qed.

Lemma seen_unrecognised f st :
  ListPosts.recognised f = false -> seen f st = st.
Proof.
  rewrite classify_recognised. unfold seen. rewrite get_syntax_eq.
  now destruct (classify f).
Qed.

Lemma seen_recognised f st :
  ListPosts.recognised f = true ->
  ListPosts.known (ListPosts.syntax (seen f st)) = true.
Proof.
  rewrite classify_recognised. unfold seen. rewrite get_syntax_eq.
  destruct (classify f) as [s|] eqn:Ec; [| discriminate].
  intros _. exact (classify_known f s Ec).
Qed.

(** Once a syntax is remembered every name is listed. *)
Lemma scan_known p names st :
  ListPosts.known (ListPosts.syntax st) = true ->
  exists st',
    ListPosts.scan (VStr p) names st = (Ok tt, st')
    /\ ListPosts.posts st'
       = ListPosts.posts st ++ map (ListPosts.entry p) names
    /\ ListPosts.calls st' = ListPosts.calls st
    /\ ListPosts.known (ListPosts.syntax st') = true.
Proof.
  revert st. induction names as [|f rest IH]; intros st Hk.
  - exists st. cbn. now rewrite app_nil_r.
  - rewrite scan_cons, (seen_known f st Hk).
    destruct (IH (ListPosts.append (ListPosts.entry p f) (seen f st)))
      as (st' & Hs & Hp & Hc & Hk').
    { exact (seen_known f st Hk). }
    exists st'. split; [exact Hs |].
    rewrite Hp, Hc. cbn [ListPosts.append ListPosts.posts ListPosts.calls map].
    rewrite seen_posts, seen_calls, <- app_assoc. auto.
Qed.

Lemma scan_fresh p names st :
  ListPosts.syntax st = None ->
  exists st',
    ListPosts.scan (VStr p) names st = (Ok tt, st')
    /\ ListPosts.posts st'
       = ListPosts.posts st
         ++ map (ListPosts.entry p) (ListPosts.skip_unrecognised names)
    /\ ListPosts.calls st' = ListPosts.calls st
    /\ (ListPosts.syntax st' = None
        \/ ListPosts.known (ListPosts.syntax st') = true).
Proof.
  revert st. induction names as [|f rest IH]; intros st Hn.
  - exists st. cbn. rewrite app_nil_r. auto.
  - cbn [ListPosts.skip_unrecognised]. rewrite scan_cons.
    destruct (ListPosts.recognised f) eqn:Er.
    + rewrite (seen_recognised f st Er).
      destruct (scan_known p rest
                  (ListPosts.append (ListPosts.entry p f) (seen f st)))
        as (st' & Hs & Hp & Hc & Hk).
      { exact (seen_recognised f st Er). }
      exists st'. split; [exact Hs |]. rewrite Hp, Hc.
      cbn [ListPosts.append ListPosts.posts ListPosts.calls map].
      rewrite seen_posts, seen_calls, <- app_assoc. auto.
    + rewrite (seen_unrecognised f st Er), Hn. cbn [ListPosts.known].
      exact (IH st Hn).
Qed.

Lemma scan_lists p names st :
  ListPosts.syntax st = None \/ ListPosts.known (ListPosts.syntax st) = true ->
  exists st',
    ListPosts.scan (VStr p) names st = (Ok tt, st')
    /\ ListPosts.posts st'
       = ListPosts.posts st ++ map (ListPosts.entry p) (listable st names)
    /\ ListPosts.calls st' = ListPosts.calls st
    /\ (ListPosts.syntax st' = None
        \/ ListPosts.known (ListPosts.syntax st') = true).
Proof.
  unfold listable. intros [Hn | Hk].
  - rewrite Hn. cbn [ListPosts.known]. now apply scan_fresh.
  - rewrite Hk. destruct (scan_known p names st Hk) as (st' & ? & ? & ? & ?).
    exists st'. auto.
Qed.

(** Whatever the path and the names, [scan] only appends posts, and only
    when it has a syntax to remember. *)
Lemma scan_grows path names st :
  exists found,
    ListPosts.posts (snd (ListPosts.scan path names st))
      = ListPosts.posts st ++ found
    /\ forallb ListPosts.is_post found = true
    /\ ListPosts.calls (snd (ListPosts.scan path names st)) = ListPosts.calls st
    /\ (found <> [] ->
        ListPosts.known (ListPosts.syntax (snd (ListPosts.scan path names st)))
        = true)
    /\ (ListPosts.known (ListPosts.syntax st) = true ->
        ListPosts.known (ListPosts.syntax (snd (ListPosts.scan path names st)))
        = true)
    /\ (ListPosts.syntax st = None
        \/ ListPosts.known (ListPosts.syntax st) = true ->
        ListPosts.syntax (snd (ListPosts.scan path names st)) = None
        \/ ListPosts.known
             (ListPosts.syntax (snd (ListPosts.scan path names st))) = true).
Proof.
  revert st. induction names as [|f rest IH]; intros st.
  - exists []. cbn. rewrite app_nil_r. repeat split; auto; congruence.
  - rewrite scan_cons.
    assert (Hwf : ListPosts.syntax st = None
                  \/ ListPosts.known (ListPosts.syntax st) = true ->
                  ListPosts.syntax (seen f st) = None
                  \/ ListPosts.known (ListPosts.syntax (seen f st)) = true).
    { intros [Hn | Hk]; [| right; now apply seen_known].
      destruct (ListPosts.recognised f) eqn:Er.
      - right. now apply seen_recognised.
      - left. now rewrite seen_unrecognised. }
    destruct (ListPosts.known (ListPosts.syntax (seen f st))) eqn:Ek.
    + destruct path as [|x|n|p|t x];
        try (exists []; cbn [snd]; rewrite app_nil_r, seen_posts, seen_calls;
             repeat split; auto; congruence).
      destruct (IH (ListPosts.append (ListPosts.entry p f) (seen f st)))
        as (found & Hp & Hf & Hc & Hne & Hk & Hw).
      exists (ListPosts.entry p f :: found).
      rewrite Hp, Hc.
      cbn [ListPosts.append ListPosts.posts ListPosts.calls ListPosts.syntax]
        in *.
      rewrite seen_posts, seen_calls, <- app_assoc.
      repeat split; auto.
    + destruct (IH (seen f st)) as (found & Hp & Hf & Hc & Hne & Hk & Hw).
      exists found. rewrite Hp, Hc, seen_posts, seen_calls.
      repeat split; auto;
        intros Hst;
        first [ apply Hk; now apply seen_known
              | apply Hw; destruct (Hwf Hst); [now left | discriminate] ].
Qed.

Lemma os_listdir_dir w p :
  w_fs w !! dir_key p = Some Dir ->
  os_listdir (VStr p) w = (Ok (children (w_fs w) (dir_key p)), w).
Proof. intros H. unfold os_listdir. now rewrite H. Qed.

(** X13: the loop of [run] filters by extension only until a syntax is
    remembered. From a state that remembers Markdown or Textile every
    name is listed; from a state that remembers none, the names before
    the first recognised one are skipped and all names from it on are
    listed, whatever their extension. Earlier entries stay in front. *)
Theorem scan_lists_after_first_match
    (p : string) (names : list string) (st : ListPosts.state) :
  ListPosts.syntax st = None \/ ListPosts.known (ListPosts.syntax st) = true ->
  exists st',
    ListPosts.scan (VStr p) names st = (Ok tt, st')
    /\ ListPosts.posts st'
       = ListPosts.posts st
         ++ map (ListPosts.entry p)
              (if ListPosts.known (ListPosts.syntax st) then names
               else ListPosts.skip_unrecognised names).
Proof.
  intros H. destruct (scan_lists p names st H) as (st' & Hs & Hp & _).
  exists st'. split; [exact Hs | exact Hp].
Qed.

Lemma scan_lists_after_first_match_witness :
  exists st',
    ListPosts.scan (VStr "/blog/_posts")
      ["draft.txt"; "a.md"; "notes.txt"; "b.textile"] ListPosts.initial
    = (Ok tt, st')
    /\ ListPosts.posts st'
       = ListPosts.posts ListPosts.initial
         ++ map (ListPosts.entry "/blog/_posts")
              (if ListPosts.known (ListPosts.syntax ListPosts.initial)
               then ["draft.txt"; "a.md"; "notes.txt"; "b.textile"]
               else ListPosts.skip_unrecognised
                      ["draft.txt"; "a.md"; "notes.txt"; "b.textile"]).
Proof.
  apply (scan_lists_after_first_match "/blog/_posts"
           ["draft.txt"; "a.md"; "notes.txt"; "b.textile"] ListPosts.initial).
  now left.
Defined.

(** X14: with a directory configured that exists, [run] succeeds, leaves
    the world as it was, appends the posts it lists to those it already
    had, puts the text of nothing found there when the list is still
    empty, and shows the whole list in the quick panel. *)
Theorem run_lists_directory (w : world) (IS_DRAFT : bool)
    (st : ListPosts.state) (p : string) :
  setting w (path_key IS_DRAFT) = VStr p ->
  p <> EmptyString ->
  w_fs w !! dir_key p = Some Dir ->
  ListPosts.syntax st = None \/ ListPosts.known (ListPosts.syntax st) = true ->
  let names := children (w_fs w) (dir_key p) in
  let listed :=
    ListPosts.posts st
    ++ map (ListPosts.entry p)
         (if ListPosts.known (ListPosts.syntax st) then names
          else ListPosts.skip_unrecognised names) in
  let shown :=
    match listed with
    | [] => [ListPosts.Note (ListPosts.NOT_FOUND IS_DRAFT)]
    | _ :: _ => listed
    end in
  exists st',
    ListPosts.run IS_DRAFT st w = (Ok tt, st', w)
    /\ ListPosts.posts st' = shown
    /\ ListPosts.calls st'
       = ListPosts.calls st ++ [ListPosts.ShowQuickPanel shown].
Proof.
  intros Hp Hne Hd Hst names listed shown. unfold ListPosts.run.
  rewrite path_string_ok by (rewrite Hp; cbn; now destruct p).
  rewrite Hp, (os_listdir_dir w p Hd). fold names.
  destruct (scan_lists p names st Hst) as (st1 & Hs & Hposts & Hc & _).
  rewrite Hs. unfold listable in Hposts. fold listed in Hposts.
  eexists. split; [reflexivity |].
  cbn [ListPosts.call ListPosts.posts ListPosts.calls].
  rewrite Hposts. unfold shown.
  destruct listed as [|x l];
    cbn [length Nat.ltb Nat.leb negb ListPosts.append ListPosts.posts
         ListPosts.calls];
    rewrite ?Hposts, Hc; split; reflexivity.
Qed.

Lemma run_lists_directory_witness :
  exists st',
    ListPosts.run false ListPosts.initial world_configured
      = (Ok tt, st', world_configured)
    /\ ListPosts.posts st' = [ListPosts.Note "No posts found!"]
    /\ ListPosts.calls st'
       = [ListPosts.ShowQuickPanel [ListPosts.Note "No posts found!"]].
Proof.
  apply (run_lists_directory world_configured false ListPosts.initial
           "/blog/_posts");
    first [reflexivity | discriminate | now left].
Defined.

(** X15: whatever happens, [run] only appends to [posts]; when it
    returns, the list it showed is the whole of [posts] and is not
    empty. *)
Theorem run_keeps_entries (w : world) (IS_DRAFT : bool) (st : ListPosts.state) :
  let r := ListPosts.run IS_DRAFT st w in
  (exists found,
     ListPosts.posts (snd (fst r)) = ListPosts.posts st ++ found)
  /\ (fst (fst r) = Ok tt ->
      ListPosts.posts (snd (fst r)) <> []
      /\ ListPosts.calls (snd (fst r))
         = ListPosts.calls st
           ++ [ListPosts.ShowQuickPanel (ListPosts.posts (snd (fst r)))]).
Proof.
  cbv zeta. unfold ListPosts.run.
  destruct (path_string IS_DRAFT w) as [[path|e] w1];
    [| cbn; split; [exists []; now rewrite app_nil_r | discriminate]].
  destruct (os_listdir path w1) as [[names|e] w2];
    [| cbn; split; [exists []; now rewrite app_nil_r | discriminate]].
  destruct (scan_grows path names st) as (found & Hp & _ & Hc & _).
  destruct (ListPosts.scan path names st) as [[[]|e] st1]; cbn [snd] in Hp, Hc;
    [| cbn; split; [now exists found | discriminate]].
  cbn [fst snd ListPosts.call ListPosts.posts ListPosts.calls].
  destruct (ListPosts.posts st1) as [|x l] eqn:E1;
    cbn [length Nat.ltb Nat.leb negb ListPosts.append ListPosts.posts
         ListPosts.calls]; rewrite ?E1, Hc.
  - split; [| intros _; split; [discriminate | reflexivity]].
    exists [ListPosts.Note (ListPosts.NOT_FOUND IS_DRAFT)].
    destruct (ListPosts.posts st); [reflexivity |].
    destruct found; discriminate.
  - split; [now exists found |].
    intros _. split; [discriminate | reflexivity].
Qed.

Lemma callback_post st i fname fpath :
  (0 <= i)%Z ->
  nth_error (ListPosts.posts st) (Z.to_nat i) = Some (ListPosts.Post fname fpath) ->
  ListPosts.callback i st
  = (ListPosts.Returned,
     ListPosts.call
       (ListPosts.SetSyntaxFile
          (default EmptyString
             (str_format ListPosts.SYNTAX_FILE_TEMPLATE
                [ListPosts.syntax_value (ListPosts.syntax (seen fname st))])))
       (ListPosts.call (ListPosts.OpenPost fpath) (seen fname st))).
Proof.
  intros Hi Hn. unfold ListPosts.callback.
  replace (-1 <? i)%Z with true by (symmetry; apply Z.ltb_lt; lia).
  rewrite Hn. unfold seen.
  destruct (ListPosts.get_syntax fname st) as [syn st1] eqn:E.
  cbn [snd]. replace syn with (ListPosts.syntax st1); [reflexivity |].
  unfold ListPosts.get_syntax in E. now injection E as <- <-.
Qed.

(** X16: the syntax an instance remembers is always none, Markdown or
    Textile: [run] and [callback] keep it so, whatever [posts] holds; and
    a [run] that appended a post to [posts] remembers Markdown or
    Textile afterwards. *)
Theorem list_commands_keep_syntax (w : world) (IS_DRAFT : bool)
    (index : Z) (st : ListPosts.state) :
  ListPosts.syntax st = None \/ ListPosts.known (ListPosts.syntax st) = true ->
  let st1 := snd (fst (ListPosts.run IS_DRAFT st w)) in
  let st2 := snd (ListPosts.callback index st) in
  (ListPosts.syntax st1 = None \/ ListPosts.known (ListPosts.syntax st1) = true)
  /\ (forall found,
        ListPosts.posts st1 = ListPosts.posts st ++ found ->
        existsb ListPosts.is_post found = true ->
        ListPosts.known (ListPosts.syntax st1) = true)
  /\ (ListPosts.syntax st2 = None \/ ListPosts.known (ListPosts.syntax st2) = true).
Proof.
  intros Hst. cbv zeta.
  assert (Hnil : forall found,
             ListPosts.posts st = ListPosts.posts st ++ found ->
             existsb ListPosts.is_post found = true -> False).
  { intros found Hf. rewrite <- (app_nil_r (ListPosts.posts st)) in Hf at 1.
    apply app_inv_head in Hf. subst found. discriminate. }
  split; [| split].
  - unfold ListPosts.run.
    destruct (path_string IS_DRAFT w) as [[path|e] w1]; [| exact Hst].
    destruct (os_listdir path w1) as [[names|e] w2]; [| exact Hst].
    destruct (scan_grows path names st) as (found & _ & _ & _ & _ & _ & Hw).
    specialize (Hw Hst).
    destruct (ListPosts.scan path names st) as [[[]|e] st1]; cbn [snd] in Hw;
      [| exact Hw].
    cbn [fst snd]. now destruct (negb (0 <? length (ListPosts.posts st1))).
  - unfold ListPosts.run.
    destruct (path_string IS_DRAFT w) as [[path|e] w1];
      [| intros found Hf He; destruct (Hnil found Hf He)].
    destruct (os_listdir path w1) as [[names|e] w2];
      [| intros found Hf He; destruct (Hnil found Hf He)].
    destruct (scan_grows path names st) as (found0 & Hp & _ & _ & Hne & _ & _).
    destruct (ListPosts.scan path names st) as [[[]|e] st1];
      cbn [snd] in Hp, Hne; cbn [fst snd].
    + destruct (ListPosts.posts st1) as [|x l] eqn:E1;
        cbn [length Nat.ltb Nat.leb negb ListPosts.call ListPosts.append
             ListPosts.posts ListPosts.syntax];
        rewrite ?E1; intros found Hf He.
      * destruct (ListPosts.posts st) as [|y l']; [| discriminate].
        destruct found0; [| discriminate].
        cbn in Hf. subst found. discriminate.
      * rewrite Hp in Hf. apply app_inv_head in Hf. subst found0.
        apply Hne. intros ->. discriminate.
    + intros found Hf He. rewrite Hp in Hf. apply app_inv_head in Hf.
      subst found0. apply Hne. intros ->. discriminate.
  - unfold ListPosts.callback. destruct (-1 <? index)%Z; [| exact Hst].
    destruct (nth_error (ListPosts.posts st) (Z.to_nat index))
      as [[fname fpath|text]|]; try exact Hst.
    assert (Hs : ListPosts.syntax (seen fname st) = None
                 \/ ListPosts.known (ListPosts.syntax (seen fname st)) = true).
    { destruct Hst as [Hn | Hk]; [| right; now apply seen_known].
      destruct (ListPosts.recognised fname) eqn:Er.
      - right. now apply seen_recognised.
      - left. now rewrite seen_unrecognised. }
    unfold seen in Hs.
    destruct (ListPosts.get_syntax fname st) as [syn st1]. exact Hs.
Qed.

Lemma list_commands_keep_syntax_witness :
  let st1 := snd (fst (ListPosts.run false ListPosts.initial world_configured)) in
  let st2 := snd (ListPosts.callback 0 ListPosts.initial) in
  (ListPosts.syntax st1 = None \/ ListPosts.known (ListPosts.syntax st1) = true)
  /\ (forall found,
        ListPosts.posts st1 = ListPosts.posts ListPosts.initial ++ found ->
        existsb ListPosts.is_post found = true ->
        ListPosts.known (ListPosts.syntax st1) = true)
  /\ (ListPosts.syntax st2 = None \/ ListPosts.known (ListPosts.syntax st2) = true).
Proof.
  apply (list_commands_keep_syntax world_configured false 0 ListPosts.initial).
  now left.
Defined.

(** X17: choosing a post whose listed name has no recognised extension
    (the extension was dropped when it was listed) opens its file and sets
    the syntax file named after what this instance remembers: the syntax
    of the file it recognised last, or [None] when it has recognised
    none. The file that is opened is not looked at. *)
Theorem callback_uses_remembered_syntax (st : ListPosts.state) (index : Z)
    (fname fpath : string) :
  (0 <= index)%Z ->
  nth_error (ListPosts.posts st) (Z.to_nat index)
    = Some (ListPosts.Post fname fpath) ->
  ListPosts.recognised fname = false ->
  ListPosts.callback index st
  = (ListPosts.Returned,
     ListPosts.call
       (ListPosts.SetSyntaxFile
          (ListPosts.syntax_file
             (match ListPosts.syntax st with
              | Some s => s
              | None => "None"
              end)))
       (ListPosts.call (ListPosts.OpenPost fpath) st)).
Proof.
  intros Hi Hn Hr.
  rewrite (callback_post st index fname fpath Hi Hn).
  rewrite (seen_unrecognised fname st Hr).
  now destruct (ListPosts.syntax st).
Qed.

Lemma callback_uses_remembered_syntax_witness :
  ListPosts.callback 0 state_listed
  = (ListPosts.Returned,
     ListPosts.call
       (ListPosts.SetSyntaxFile
          "Packages/Jekyll/Syntaxes/Markdown (Jekyll).tmLanguage")
       (ListPosts.call (ListPosts.OpenPost "/blog/_posts/a.textile")
          state_listed)).
Proof.
  apply (callback_uses_remembered_syntax state_listed 0 "a"
           "/blog/_posts/a.textile").
  - lia.
  - reflexivity.
  - reflexivity.
Defined.

(** Another window listed the posts: this instance has recognised no
    file, and the syntax file it sets is named after [None]. *)
Example callback_in_another_window :
  ListPosts.callback 0
    (ListPosts.mkstate (ListPosts.posts state_listed) None [])
  = (ListPosts.Returned,
     ListPosts.mkstate (ListPosts.posts state_listed) None
       [ListPosts.OpenPost "/blog/_posts/a.textile";
        ListPosts.SetSyntaxFile
          "Packages/Jekyll/Syntaxes/None (Jekyll).tmLanguage"]).
Proof. reflexivity. Qed.

(** X18: a cancelled panel (index -1) and the choice of the text that
    says nothing was found leave the state as it is: nothing is opened. *)
Theorem callback_ignores (st : ListPosts.state) (index : Z) :
  (index <= -1)%Z
  \/ (exists text,
        nth_error (ListPosts.posts st) (Z.to_nat index)
        = Some (ListPosts.Note text)) ->
  ListPosts.callback index st = (ListPosts.Returned, st).
Proof.
  unfold ListPosts.callback. intros [Hi | [text Hn]].
  - now replace (-1 <? index)%Z with false by (symmetry; apply Z.ltb_ge; lia).
  - rewrite Hn. now destruct (-1 <? index)%Z.
Qed.

Lemma callback_ignores_witness :
  ListPosts.callback (-1) state_listed = (ListPosts.Returned, state_listed).
Proof. apply callback_ignores. left. lia. Defined.

(** X19: a file name that does not begin with a dot is listed under the
    name before its last dot, with the directory joined to the full name
    as its path. *)
Theorem entry_drops_extension (p : string) (c : ascii) (stem e : string) :
  not_dot c = true ->
  str_all not_slash (String c stem) = true ->
  str_all not_slash e = true ->
  str_all not_dot e = true ->
  ListPosts.entry p (String c stem +:+ String "." e)
  = ListPosts.Post (String c stem)
      (posix_join p (String c stem +:+ String "." e)).
Proof.
  intros Hc Hs He Hd. unfold ListPosts.entry.
  now rewrite (posix_splitext_name c stem e Hc Hs He Hd).
Qed.

Lemma entry_drops_extension_witness :
  ListPosts.entry "/blog/_posts" ("2024-01-05-my.post" +:+ String "." "md")
  = ListPosts.Post "2024-01-05-my.post"
      (posix_join "/blog/_posts" ("2024-01-05-my.post" +:+ String "." "md")).
Proof.
  apply (entry_drops_extension "/blog/_posts" "2" "024-01-05-my.post" "md");
    reflexivity.
Defined.

(** The two parts [posixpath.splitext] returns make up the path. *)
Lemma posix_splitext_join (p : string) :
  fst (posix_splitext p) +:+ snd (posix_splitext p) = p.
Proof.
  unfold posix_splitext. destruct (_ <? _)%Z.
  - apply splitext_scan_join.
  - apply str_app_nil_r.
Qed.
